(** * BishengRAGTool: retrieval fusion, context assembly and answer synthesis

    A shallow embedding of [bisheng_langchain/rag/bisheng_rag_tool.py].
    Python values are modelled by the data the tool touches: documents with a
    [page_content] string and a [metadata] dictionary, exceptions as a result
    type, and the loguru calls as a list of emitted records. *)

From Stdlib Require Import ZArith Lia.
From Stdlib Require Import Sorting.Sorted.
From stdpp Require Import base option list strings gmap.

Local Open Scope Z_scope.

(** ** Exceptions, results and the logging effect *)

(** The exception classes that occur in the tool or are raised by its
    collaborators.  [OtherError cls msg] stands for any further subclass of
    [Exception]. *)
Inductive Exception : Type :=
  | KeyError (key : string)
  | TypeError
  | ValueError (msg : string)
  | NameError (name : string)
  | ConnectionError (msg : string)
  | TimeoutError (msg : string)
  | OtherError (cls msg : string).

(** [str(e)] *)
Definition str (e : Exception) : string :=
  match e with
  | KeyError k => "'" +:+ k +:+ "'"
  | TypeError => "'<' not supported between instances"
  | ValueError m => m
  | NameError n => "name '" +:+ n +:+ "' is not defined"
  | ConnectionError m => m
  | TimeoutError m => m
  | OtherError _ m => m
  end.


Inductive Result (A : Type) : Type :=
  | Ok (a : A)
  | Raise (e : Exception).
Arguments Ok {A} a.
Arguments Raise {A} e.

(** What the [logger.info] / [logger.error] calls of the tool emit. *)
Inductive LogRecord : Type :=
  | InfoDocsOrigin (n : nat)
  | InfoDocsAfterDeleteRedundancy (n : nat)
  | InfoSortChunks
  | InfoRetrieverDropped (position : nat) (e : Exception)
  | ErrorQuestion (question : string) (e : Exception).

(** A computation emits log records and either returns or raises. *)
Definition M (A : Type) : Type := (list LogRecord * Result A)%type.

Definition ret {A} (a : A) : M A := ([], Ok a).
Definition raise {A} (e : Exception) : M A := ([], Raise e).
Definition lift {A} (r : Result A) : M A := ([], r).
Definition tell (r : LogRecord) : M unit := ([r], Ok tt).

Definition bind {A B} (m : M A) (k : A → M B) : M B :=
  match m with
  | (l, Ok a) => let '(l', r) := k a in (l ++ l', r)
  | (l, Raise e) => (l, Raise e)
  end.

Declare Scope py_scope.
Delimit Scope py_scope with py.
Notation "x <- m ;; k" := (bind m (fun x => k))
  (at level 100, m at next level, right associativity) : py_scope.
Notation "m ;;; k" := (bind m (fun _ => k))
  (at level 100, right associativity) : py_scope.
Local Open Scope py_scope.

Definition outcome {A} (m : M A) : Result A := m.2.
Definition emitted {A} (m : M A) : list LogRecord := m.1.

(** ** Documents *)

(** Values stored in a document's metadata: text and integers. *)
Inductive pyval : Type :=
  | PStr (s : string)
  | PInt (n : Z).

#[global] Instance pyval_eq_dec : EqDecision pyval.
Proof. solve_decision. Defined.

(** langchain's [Document]: [page_content] and [metadata]. *)
Record Document : Type := mkDocument {
  page_content : string;
  metadata : gmap string pyval;
}.

#[global] Instance Document_eq_dec : EqDecision Document.
Proof. solve_decision. Defined.

(** [len(doc.page_content)] *)
Definition len (doc : Document) : Z := Z.of_nat (String.length (page_content doc)).

Definition content_sum (docs : list Document) : Z :=
  foldr (fun d acc => len d + acc) 0 docs.

(** ** The budget cutoff of [retrieval_and_rerank] (lines 115-122) *)

(** The [for doc in docs] loop, started in the state
    [(doc_num, doc_content_sum)]; it returns the state in which the loop is
    left, by exhaustion or by [break]. *)
Fixpoint budget_loop (max_content : Z) (docs : list Document)
    (doc_num : nat) (doc_content_sum : Z) : nat * Z :=
  match docs with
  | [] => (doc_num, doc_content_sum)
  | doc :: rest =>
      let doc_content_sum := doc_content_sum + len doc in
      if doc_content_sum >? max_content then (doc_num, doc_content_sum)
      else budget_loop max_content rest (S doc_num) doc_content_sum
  end.

(** [doc_num, doc_content_sum = 0, 0], the loop, then [docs[:doc_num]]. *)
Definition delete_redundancy (max_content : Z) (docs : list Document) : list Document :=
  let '(doc_num, _) := budget_loop max_content docs 0%nat 0 in
  take doc_num docs.

(** ** Pure computations that may raise *)

Definition rbind {A B} (r : Result A) (k : A → Result B) : Result B :=
  match r with
  | Ok a => k a
  | Raise e => Raise e
  end.

Notation "x <-? r ;; k" := (rbind r (fun x => k))
  (at level 100, r at next level, right associativity) : py_scope.

(** [d[k]] on a dictionary. *)
Definition getitem {V} (d : gmap string V) (k : string) : Result V :=
  match d !! k with
  | Some v => Ok v
  | None => Raise (KeyError k)
  end.

(** [[f(x) for x in l]], stopping at the first element where [f] raises. *)
Fixpoint map_result {A B} (f : A → Result B) (l : list A) : Result (list B) :=
  match l with
  | [] => Ok []
  | x :: l' =>
      y <-? f x ;;
      ys <-? map_result f l' ;;
      Ok (y :: ys)
  end.

(** ** The coherence reorder of [retrieval_and_rerank] (lines 125-128) *)

(** The sort key [(x.metadata['source'], x.metadata['chunk_index'])]. *)
Definition Key : Type := (pyval * pyval)%type.

Definition sort_key (x : Document) : Result Key :=
  source <-? getitem (metadata x) "source" ;;
  chunk_index <-? getitem (metadata x) "chunk_index" ;;
  Ok (source, chunk_index).

(** [a < b] on metadata values: text against text, integer against integer;
    a mixed comparison raises [TypeError]. *)
Definition py_lt (a b : pyval) : Result bool :=
  match a, b with
  | PStr s, PStr t => Ok (String.ltb s t)
  | PInt m, PInt n => Ok (m <? n)
  | _, _ => Raise TypeError
  end.

(** [a < b] on pairs: the first components that differ under [==] decide;
    equal pairs are not less. *)
Definition tuple_lt (a b : Key) : Result bool :=
  if decide (a.1 = b.1) then
    if decide (a.2 = b.2) then Ok false else py_lt a.2 b.2
  else py_lt a.1 b.1.

(** Stable insertion of a decorated element: it passes the elements that are
    strictly smaller and stops in front of the first one that is not. *)
Fixpoint insert_sorted (x : Key * Document) (l : list (Key * Document))
    : Result (list (Key * Document)) :=
  match l with
  | [] => Ok [x]
  | y :: l' =>
      b <-? tuple_lt y.1 x.1 ;;
      if b then (r <-? insert_sorted x l' ;; Ok (y :: r)) else Ok (x :: y :: l')
  end.

Fixpoint sort_decorated (l : list (Key * Document)) : Result (list (Key * Document)) :=
  match l with
  | [] => Ok []
  | x :: l' =>
      s <-? sort_decorated l' ;;
      insert_sorted x s
  end.

(** [sorted(docs, key=lambda x: (...))]: every key is computed first (a
    missing metadata entry raises [KeyError] there), then the decorated list
    is sorted stably with [<] on the keys; a comparison that raises ends the
    sort.  On text and integer values two keys either compare in both
    directions or in none, so that a stable sort returns one and the same
    list whichever comparisons it makes. *)
Definition sorted (docs : list Document) : Result (list Document) :=
  decorated <-? map_result (fun x => k <-? sort_key x ;; Ok (k, x)) docs ;;
  s <-? sort_decorated decorated ;;
  Ok (s.*2).

(** Ascending order of two documents under the sort key: both keys exist and
    the second is not smaller than the first. *)
Definition key_le (a b : Document) : Prop :=
  ∃ ka kb, sort_key a = Ok ka ∧ sort_key b = Ok kb ∧ tuple_lt kb ka = Ok false.

(** ** The fused retriever *)

(** A retriever answers a query on a collection or raises. *)
Definition Retriever : Type := string → string → Result (list Document).

(** Modelled from the spec: the identity that [EnsembleRetriever] (not among
    the sources) deduplicates by, section 3: the pair [(source, chunk_index)],
    read from the metadata. *)
Definition identity (d : Document) : option pyval * option pyval :=
  (metadata d !! "source", metadata d !! "chunk_index").

(** Modelled from the spec: the deduplication step of [EnsembleRetriever]
    (not among the sources), section 4.2 step 3: of the chunks of one
    identity the first seen is kept. *)
Fixpoint dedup_seen (seen : list (option pyval * option pyval)) (docs : list Document)
    : list Document :=
  match docs with
  | [] => []
  | d :: rest =>
      if decide (identity d ∈ seen) then dedup_seen seen rest
      else d :: dedup_seen (identity d :: seen) rest
  end.

(** Modelled from the spec: deduplication of [EnsembleRetriever] (not among
    the sources) started with no identity seen. *)
Definition dedup (docs : list Document) : list Document := dedup_seen [] docs.

(** Modelled from the spec: [EnsembleRetriever] of [bisheng_langchain.retrievers]
    is not among the sources.  Section 4.2 of the specification: every
    retriever is invoked with the same request in configuration order; a
    retriever that fails is dropped and the loss is logged, unless the
    ensemble is configured to require all retrievers, in which case the
    failure propagates; the returned sequences are concatenated in
    configuration order and deduplicated by identity, first seen first kept.
    The [origin_retriever] tag of the specification is not represented: a
    [Document] carries [page_content] and [metadata] only. *)
Record EnsembleRetriever : Type := mkEnsembleRetriever {
  retrievers : list Retriever;
  require_all : bool;
}.

(** Modelled from the spec: the fan-out of [EnsembleRetriever] (not among the
    sources), section 4.2 steps 1-2 and its error handling; [position] counts
    the retrievers in configuration order. *)
Fixpoint invoke_all (require_all : bool) (query collection_name : string)
    (rs : list Retriever) (position : nat) : M (list (list Document)) :=
  match rs with
  | [] => ret []
  | r :: rs' =>
      match r query collection_name with
      | Ok docs =>
          rest <- invoke_all require_all query collection_name rs' (S position) ;;
          ret (docs :: rest)
      | Raise e =>
          if require_all then raise e
          else
            tell (InfoRetrieverDropped position e) ;;;
            invoke_all require_all query collection_name rs' (S position)
      end
  end.

(** Modelled from the spec: [EnsembleRetriever.get_relevant_documents] (not
    among the sources), the [fuse] contract of section 4.2. *)
Definition get_relevant_documents (self : EnsembleRetriever)
    (query collection_name : string) : M (list Document) :=
  outs <- invoke_all (require_all self) query collection_name (retrievers self) 0%nat ;;
  ret (dedup (concat outs)).

(** The outputs of the retrievers that answer, in configuration order, and
    their deduplicated merge. *)
Definition answered (query collection_name : string) (rs : list Retriever)
    : list (list Document) :=
  omap (fun r : Retriever =>
          match r query collection_name with Ok docs => Some docs | Raise _ => None end) rs.

Definition dedup_merge (query collection_name : string) (rs : list Retriever)
    : list Document :=
  dedup (concat (answered query collection_name rs)).

(** ** The configuration of the retrievers *)

Inductive RetrieverClass : Type :=
  | KeywordRetriever
  | BaselineVectorRetriever
  | MixRetriever
  | SmallerChunksVectorRetriever.

(** The dictionary [retriever_classes] of [_post_init_retriever]. *)
Definition retriever_classes : gmap string RetrieverClass :=
  {[ "KeywordRetriever" := KeywordRetriever;
     "BaselineVectorRetriever" := BaselineVectorRetriever;
     "MixRetriever" := MixRetriever;
     "SmallerChunksVectorRetriever" := SmallerChunksVectorRetriever ]}.

(** One entry of [params['retriever']['retrievers']]: a dictionary whose
    keys [type], [splitter] and [retrieval] may each be absent.  The
    dictionaries that the code iterates over keep their order. *)
Record RetrieverConfig : Type := mkRetrieverConfig {
  type : option string;
  splitter : option (list (string * gmap string pyval));
  retrieval : option (list (string * pyval));
}.

(** [d[k]] on an entry whose key may be absent. *)
Definition entry {V} (k : string) (v : option V) : Result V :=
  match v with
  | Some x => Ok x
  | None => Raise (KeyError k)
  end.

(** ** The tool *)

(** [params['generate']] *)
Record Generate : Type := mkGenerate {
  max_content : Z;
  chain_type : string;
  prompt_type : option string;
}.

(** The loaded parameters [self.params]: the retriever entries
    ([params['retriever']['retrievers']]), the [generate] part and the
    [post_retrieval] part. *)
Record Params : Type := mkParams {
  retriever_entries : list RetrieverConfig;
  generate : Generate;
  post_retrieval : gmap string bool;
}.

(** The question-answering chain: called on the input documents and the
    question, it returns its outputs (a dictionary) or raises. *)
Definition Chain : Type := list Document → string → Result (gmap string string).

Record BishengRAGTool : Type := mkBishengRAGTool {
  retriever : EnsembleRetriever;
  qa_chain : Chain;
  params : Params;
  collection_name : string;
}.

(** [self.params['post_retrieval'].get('sort_by_source_and_index', False)] *)
Definition sort_by_source_and_index (self : BishengRAGTool) : bool :=
  default false (post_retrieval (params self) !! "sort_by_source_and_index").

(** [retrieval_and_rerank] (lines 104-129). *)
Definition retrieval_and_rerank (self : BishengRAGTool) (query : string) : M (list Document) :=
  docs <- get_relevant_documents (retriever self) query (collection_name self) ;;
  tell (InfoDocsOrigin (length docs)) ;;;
  let docs := delete_redundancy (max_content (generate (params self))) docs in
  tell (InfoDocsAfterDeleteRedundancy (length docs)) ;;;
  if sort_by_source_and_index self then
    tell InfoSortChunks ;;;
    lift (sorted docs)
  else ret docs.

(** Reading a name that is bound neither in the function, nor at module
    level, nor as a builtin. *)
Definition unbound_name (name : string) : M string := raise (NameError name).

(** [run] (lines 131-139).  The handler of [except Exception as e] formats
    its log message from the name [question]; the function binds [self],
    [query], [docs] and [e], and the module binds no [question] either. *)
Definition run (self : BishengRAGTool) (query : string) : M string :=
  docs <- retrieval_and_rerank self query ;;
  ans <- match qa_chain self docs query with
         | Ok ans => ret ans
         | Raise e =>
             question <- unbound_name "question" ;;
             tell (ErrorQuestion question e) ;;;
             ret {[ "output_text" := str e ]}
         end ;;
  rag_answer <- lift (getitem ans "output_text") ;;
  ret rag_answer.

(** A coroutine object: nothing runs until it is awaited. *)
Definition Coroutine (A : Type) : Type := unit → M A.
Definition await {A} (c : Coroutine A) : M A := c tt.

(** [arun] (lines 141-143). *)
Definition arun (self : BishengRAGTool) (query : string) : Coroutine string :=
  fun _ =>
    rag_answer <- run self query ;;
    ret rag_answer.

(** ** Construction *)

(** What construction leaves in the loaded parameters.  [__init__] pops
    [type] out of every retriever entry (line 55), and [_post_init_retriever]
    pops [type] out of every splitter declaration of the entry (line 91);
    both dictionaries are the ones held in [self.params], so that after a
    construction that went through all entries the parameters of the tool
    lack these keys. *)
Definition popped_entry (retriever : RetrieverConfig) : RetrieverConfig :=
  mkRetrieverConfig None
    ((fun splitter_params : list (string * gmap string pyval) =>
        (fun '(key, value) => (key, delete "type" value)) <$> splitter_params)
       <$> splitter retriever)
    (retrieval retriever).

Definition popped_params (params : Params) : Params :=
  mkParams (popped_entry <$> retriever_entries params)
    (generate params) (post_retrieval params).

Section Construction.

(** The collaborators of construction: the stores, the language model, the
    splitter and retriever constructors, the prompt import and the chain
    loader. *)
Variables Milvus ElasticKeywordsSearch LanguageModelLike : Type.
Variables SplitterClass Splitter Prompt : Type.

Inductive Kwarg : Type :=
  | KwSplitter (s : Splitter)
  | KwValue (v : pyval)
  | KwVectorStore (s : Milvus)
  | KwKeywordStore (s : ElasticKeywordsSearch).

Variable import_by_type : string → pyval → Result SplitterClass.
Variable new_splitter : SplitterClass → gmap string pyval → Result Splitter.
Variable new_retriever : RetrieverClass → gmap string Kwarg → Result Retriever.
Variable import_class : string → Result Prompt.
Variable load_qa_chain : LanguageModelLike → string → option Prompt → Result Chain.

(** The loop over [splitter_params.items()] (lines 90-92). *)
Fixpoint init_splitters (splitter_params : list (string * gmap string pyval))
    (input_kwargs : gmap string Kwarg) : Result (gmap string Kwarg) :=
  match splitter_params with
  | [] => Ok input_kwargs
  | (key, value) :: rest =>
      name <-? getitem value "type" ;;
      splitter_obj <-? import_by_type "textsplitters" name ;;
      s <-? new_splitter splitter_obj (delete "type" value) ;;
      init_splitters rest (<[key := KwSplitter s]> input_kwargs)
  end.

(** The loop over [retrieval_params.items()] (lines 95-96). *)
Definition init_retrieval (retrieval_params : list (string * pyval))
    (input_kwargs : gmap string Kwarg) : gmap string Kwarg :=
  foldl (fun kw '(key, value) => <[key := KwValue value]> kw) input_kwargs retrieval_params.

(** [_post_init_retriever] (lines 78-102). *)
Definition _post_init_retriever (retriever_type : string)
    (vector_store : Milvus) (keyword_store : ElasticKeywordsSearch)
    (splitter_kwargs : list (string * gmap string pyval))
    (retrieval_kwargs : list (string * pyval)) : Result Retriever :=
  match retriever_classes !! retriever_type with
  | None => Raise (ValueError ("Unknown retriever type: " +:+ retriever_type))
  | Some retriever_class =>
      input_kwargs <-? init_splitters splitter_kwargs ∅ ;;
      let input_kwargs := init_retrieval retrieval_kwargs input_kwargs in
      let input_kwargs := <["vector_store" := KwVectorStore vector_store]> input_kwargs in
      let input_kwargs := <["keyword_store" := KwKeywordStore keyword_store]> input_kwargs in
      new_retriever retriever_class input_kwargs
  end.

(** The loop of [__init__] over the configured retrievers (lines 52-62). *)
Fixpoint init_retriever_list (vector_store : Milvus)
    (keyword_store : ElasticKeywordsSearch)
    (retrievers : list RetrieverConfig) : Result (list Retriever) :=
  match retrievers with
  | [] => Ok []
  | retriever :: rest =>
      retriever_type <-? entry "type" (type retriever) ;;
      splitter_kwargs <-? entry "splitter" (splitter retriever) ;;
      retrieval_kwargs <-? entry "retrieval" (retrieval retriever) ;;
      r <-? _post_init_retriever retriever_type vector_store keyword_store
              splitter_kwargs retrieval_kwargs ;;
      rs <-? init_retriever_list vector_store keyword_store rest ;;
      Ok (r :: rs)
  end.

(** [__init__] (lines 34-76), from the parameters that [yaml.safe_load]
    returned; the tool holds them as the loop over the retrievers left them. *)
Definition __init__ (vector_store : Milvus) (keyword_store : ElasticKeywordsSearch)
    (llm : LanguageModelLike) (collection_name : string) (params : Params)
    : Result BishengRAGTool :=
  retriever_list <-? init_retriever_list vector_store keyword_store
                       (retriever_entries params) ;;
  let retriever := mkEnsembleRetriever retriever_list false in
  prompt <-? match prompt_type (generate params) with
             | Some prompt_type =>
                 p <-? import_class ("bisheng_langchain.rag.prompts." +:+ prompt_type) ;;
                 Ok (Some p)
             | None => Ok None
             end ;;
  qa_chain <-? load_qa_chain llm (chain_type (generate params)) prompt ;;
  Ok (mkBishengRAGTool retriever qa_chain (popped_params params) collection_name).

End Construction.

(** ** Functional readings used by the proofs *)

(** The chunks that the budget loop counts when it is entered with the
    running sum [doc_content_sum]. *)
Fixpoint counted (max_content : Z) (doc_content_sum : Z) (docs : list Document)
    : list Document :=
  match docs with
  | [] => []
  | doc :: rest =>
      if doc_content_sum + len doc >? max_content then []
      else doc :: counted max_content (doc_content_sum + len doc) rest
  end.

(** The leading chunks whose content is empty. *)
Fixpoint leading_empty (docs : list Document) : list Document :=
  match docs with
  | [] => []
  | doc :: rest => if decide (len doc = 0) then doc :: leading_empty rest else []
  end.

(** ** Variations of a tool and sample data *)

(** The tool with the reorder flag of its parameters set to [b]. *)
Definition with_sort_flag (b : bool) (self : BishengRAGTool) : BishengRAGTool :=
  mkBishengRAGTool (retriever self) (qa_chain self)
    (mkParams (retriever_entries (params self)) (generate (params self))
       (<["sort_by_source_and_index" := b]> (post_retrieval (params self))))
    (collection_name self).


(** A chunk whose metadata names its source by text and its position by an
    integer. *)
Definition well_keyed (d : Document) : Prop :=
  ∃ s n, metadata d !! "source" = Some (PStr s)
         ∧ metadata d !! "chunk_index" = Some (PInt n).

(** [n] characters of text. *)
Fixpoint text (n : nat) : string :=
  match n with
  | O => ""
  | S n' => "x" +:+ text n'
  end.

Definition chunk (source : string) (chunk_index : Z) (content : string) : Document :=
  mkDocument content {[ "source" := PStr source; "chunk_index" := PInt chunk_index ]}.

(** A chunk without a [chunk_index] entry. *)
Definition chunk_without_index (source content : string) : Document :=
  mkDocument content {[ "source" := PStr source ]}.

(** A retriever with a fixed outcome. *)
Definition fixed_retriever (out : Result (list Document)) : Retriever :=
  fun _ _ => out.

(** A chain that answers with the number of input documents, and one whose
    model call times out. *)
Definition counting_chain : Chain :=
  fun docs _ => Ok {[ "output_text" := text (length docs) ]}.

Definition failing_chain : Chain :=
  fun _ _ => Raise (TimeoutError "timed out").

Definition sample_tool (outs : list (Result (list Document))) (chain : Chain)
    (max_content : Z) (flag : bool) : BishengRAGTool :=
  mkBishengRAGTool
    (mkEnsembleRetriever (fixed_retriever <$> outs) false)
    chain
    (mkParams [] (mkGenerate max_content "stuff" None)
       {[ "sort_by_source_and_index" := flag ]})
    "collection".

(** Order on metadata values and on keys, as propositions. *)
Definition pv_lt (a b : pyval) : Prop := py_lt a b = Ok true.

Definition key_leq (ka kb : Key) : Prop :=
  pv_lt ka.1 kb.1 ∨ (ka.1 = kb.1 ∧ (ka.2 = kb.2 ∨ pv_lt ka.2 kb.2)).

(** Ascending order of two decorated elements. *)
Definition decorated_le (p q : Key * Document) : Prop := tuple_lt q.1 p.1 = Ok false.

(** A key made of a text and an integer. *)
Definition typed_key (k : Key) : Prop := ∃ s n, k = (PStr s, PInt n).

(** The names of the four retriever variants. *)
Definition known_types : list string :=
  ["KeywordRetriever"; "BaselineVectorRetriever"; "MixRetriever";
   "SmallerChunksVectorRetriever"].

(** A retriever entry whose [type] is present and names none of the four
    variants. *)
Definition unknown_type (r : RetrieverConfig) : Prop :=
  ∃ t, type r = Some t ∧ t ∉ known_types.

(** ** The tool factory *)

(** The input of a tool call: a string, or a dictionary of named arguments. *)
Inductive ToolInput : Type :=
  | InputStr (s : string)
  | InputDict (d : gmap string pyval).

(** [MultArgsSchemaTool._to_args_and_kwargs] (lines 23-29): the positional
    and the keyword arguments made from the tool input. *)
Definition _to_args_and_kwargs (tool_input : ToolInput)
    : list string * gmap string pyval :=
  match tool_input with
  | InputStr s => ([s], ∅)
  | InputDict d => ([], d)
  end.

(** The tool that [get_api_tool] returns: its name, its description and the
    two callables it wraps. *)
Record MultArgsSchemaTool : Type := mkMultArgsSchemaTool {
  name : string;
  description : string;
  func : string → M string;
  coroutine : string → Coroutine string;
}.

Section Factory.

Variables Milvus ElasticKeywordsSearch LanguageModelLike : Type.
Variables SplitterClass Splitter Prompt : Type.
Variable import_by_type : string → pyval → Result SplitterClass.
Variable new_splitter : SplitterClass → gmap string pyval → Result Splitter.
Variable new_retriever :
  RetrieverClass → gmap string (Kwarg Milvus ElasticKeywordsSearch Splitter) → Result Retriever.
Variable import_class : string → Result Prompt.
Variable load_qa_chain : LanguageModelLike → string → option Prompt → Result Chain.

(** The keyword arguments of [get_api_tool], by the keys that the code
    reads; a key may be absent. *)
Record ApiToolKwargs : Type := mkApiToolKwargs {
  kw_description : option string;
  kw_vector_store : option Milvus;
  kw_keyword_store : option ElasticKeywordsSearch;
  kw_llm : option LanguageModelLike;
  kw_collection_name : option string;
}.

(** The call of [cls] on the keyword arguments: it binds the four named
    parameters of [__init__] and raises [TypeError] when one is missing;
    further keys are taken up by the catch-all parameter and ignored.
    [params] is what [yaml.safe_load] returns. *)
Definition new_tool (kwargs : ApiToolKwargs) (params : Params) : Result BishengRAGTool :=
  match kw_vector_store kwargs, kw_keyword_store kwargs, kw_llm kwargs,
        kw_collection_name kwargs with
  | Some vector_store, Some keyword_store, Some llm, Some collection_name =>
      __init__ _ _ _ _ _ _ import_by_type new_splitter new_retriever
        import_class load_qa_chain
        vector_store keyword_store llm collection_name params
  | _, _, _, _ => Raise TypeError
  end.

(** [get_api_tool] (lines 145-156): the description is read with a default,
    then popped; one instance is constructed for [func] and another one for
    [coroutine]. *)
Definition get_api_tool (name : string) (kwargs : ApiToolKwargs) (params : Params)
    : Result MultArgsSchemaTool :=
  let function_description := default "" (kw_description kwargs) in
  _ <-? entry "description" (kw_description kwargs) ;;
  func_self <-? new_tool kwargs params ;;
  coroutine_self <-? new_tool kwargs params ;;
  Ok (mkMultArgsSchemaTool name function_description
        (run func_self) (arun coroutine_self)).

End Factory.

(** ** Further notions used by the properties *)

#[global] Instance Exception_eq_dec : EqDecision Exception.
Proof. solve_decision. Defined.

#[global] Instance Result_eq_dec {A} `{EqDecision A} : EqDecision (Result A).
Proof. solve_decision. Defined.

(** The chunks of a list whose sort key is [k], in the order of the list. *)
Definition with_key (k : Key) (docs : list Document) : list Document :=
  filter (fun d => sort_key d = Ok k) docs.

(** The tool with another chain. *)
Definition with_chain (chain : Chain) (self : BishengRAGTool) : BishengRAGTool :=
  mkBishengRAGTool (retriever self) chain (params self) (collection_name self).

(** The log records of [retrieval_and_rerank] after those of the ensemble. *)
Definition retrieval_records (fused : nat) (kept : nat) (flag : bool) : list LogRecord :=
  [InfoDocsOrigin fused; InfoDocsAfterDeleteRedundancy kept]
  ++ (if flag then [InfoSortChunks] else []).

(** * Properties *)

(** ** The budget cutoff *)

Lemma len_nonneg (doc : Document) : 0 ≤ len doc.
Proof. unfold len. lia. Qed.

Lemma content_sum_nonneg (docs : list Document) : 0 ≤ content_sum docs.
Proof.
  induction docs as [|d docs IH]; simpl; [lia|].
  pose proof (len_nonneg d). lia.
Qed.

Lemma content_sum_app (l1 l2 : list Document) :
  content_sum (l1 ++ l2) = content_sum l1 + content_sum l2.
Proof. induction l1 as [|d l1 IH]; simpl; lia. Qed.

Lemma budget_loop_counted (max_content : Z) (docs : list Document) :
  ∀ (doc_num : nat) (s : Z),
    (budget_loop max_content docs doc_num s).1
    = (doc_num + length (counted max_content s docs))%nat.
Proof.
  induction docs as [|d docs IH]; intros n s; simpl.
  - lia.
  - destruct (s + len d >? max_content); simpl.
    + lia.
    + rewrite IH. lia.
Qed.

Lemma counted_take (max_content : Z) (docs : list Document) :
  ∀ s, take (length (counted max_content s docs)) docs = counted max_content s docs.
Proof.
  induction docs as [|d docs IH]; intros s; simpl; [done|].
  destruct (s + len d >? max_content); simpl; [done|].
  by rewrite IH.
Qed.

Lemma delete_redundancy_counted (max_content : Z) (docs : list Document) :
  delete_redundancy max_content docs = counted max_content 0 docs.
Proof.
  unfold delete_redundancy.
  pose proof (budget_loop_counted max_content docs 0 0) as H.
  destruct (budget_loop max_content docs 0 0) as [n s']. simpl in H. subst n.
  apply counted_take.
Qed.

Lemma counted_prefix (max_content : Z) (docs : list Document) :
  ∀ s, counted max_content s docs `prefix_of` docs.
Proof.
  induction docs as [|d docs IH]; intros s; simpl; [done|].
  destruct (s + len d >? max_content).
  - apply prefix_nil.
  - apply prefix_cons, IH.
Qed.

Lemma counted_sum (max_content : Z) (docs : list Document) :
  ∀ s, s ≤ max_content → s + content_sum (counted max_content s docs) ≤ max_content.
Proof.
  induction docs as [|d docs IH]; intros s Hs; simpl; [lia|].
  destruct (Z.gtb_spec (s + len d) max_content) as [Hgt|Hle]; simpl; [lia|].
  specialize (IH (s + len d) Hle). lia.
Qed.

Lemma counted_stop (max_content : Z) (docs : list Document) :
  ∀ s d rest,
    docs = counted max_content s docs ++ d :: rest →
    s + content_sum (counted max_content s docs) + len d > max_content.
Proof.
  induction docs as [|d0 docs IH]; intros s d rest Heq; simpl in *.
  - discriminate.
  - destruct (Z.gtb_spec (s + len d0) max_content) as [Hgt|Hle]; simpl in *.
    + injection Heq as -> _. lia.
    + injection Heq as Heq. specialize (IH _ _ _ Heq). lia.
Qed.

Lemma counted_app (max_content : Z) (pre post : list Document) :
  ∀ s, s + content_sum pre ≤ max_content →
    counted max_content s (pre ++ post)
    = pre ++ counted max_content (s + content_sum pre) post.
Proof.
  induction pre as [|d pre IH]; intros s Hs; simpl in *.
  - by rewrite Z.add_0_r.
  - pose proof (content_sum_nonneg pre).
    destruct (Z.gtb_spec (s + len d) max_content) as [Hgt|Hle]; [lia|].
    rewrite IH by lia. by rewrite Z.add_assoc.
Qed.

Lemma counted_zero_budget (docs : list Document) :
  counted 0 0 docs = leading_empty docs.
Proof.
  induction docs as [|d docs IH]; simpl; [done|].
  pose proof (len_nonneg d).
  destruct (decide (len d = 0)) as [Hz|Hnz].
  - rewrite Hz. change (0 + 0) with 0. simpl. by rewrite IH.
  - destruct (Z.gtb_spec (0 + len d) 0); [done|lia].
Qed.

Lemma leading_empty_sum (docs : list Document) :
  content_sum (leading_empty docs) = 0.
Proof.
  induction docs as [|d docs IH]; simpl; [done|].
  destruct (decide (len d = 0)); simpl; lia.
Qed.

Lemma leading_empty_all (docs : list Document) :
  Forall (fun d => page_content d = "") (leading_empty docs).
Proof.
  induction docs as [|d docs IH]; simpl; [constructor|].
  destruct (decide (len d = 0)) as [Hz|]; [|constructor].
  constructor; [|done].
  unfold len in Hz. destruct (page_content d); [done|simpl in Hz; lia].
Qed.

(** C1.  Before any reorder the assembled context is a prefix of the fused
    candidate list; whenever the budget is not negative, the content lengths
    of the included chunks sum to at most [max_content]; and the walk stops
    at the first candidate that would push the running sum past the budget:
    the candidate that follows the context, if there is one, does not fit,
    and nothing behind it is taken instead. *)
Theorem budget_cutoff_prefix_within_budget :
  ∀ (max_content : Z) (docs : list Document),
    delete_redundancy max_content docs `prefix_of` docs
    ∧ (0 ≤ max_content → content_sum (delete_redundancy max_content docs) ≤ max_content)
    ∧ (∀ d rest,
         docs = delete_redundancy max_content docs ++ d :: rest →
         content_sum (delete_redundancy max_content docs) + len d > max_content).
Proof.
  intros max_content docs. rewrite delete_redundancy_counted.
  split; [apply counted_prefix|]. split.
  - intros Hmax. pose proof (counted_sum max_content docs 0 Hmax). lia.
  - intros d rest Heq. pose proof (counted_stop max_content docs 0 d rest Heq). lia.
Qed.

Lemma budget_cutoff_prefix_within_budget_witness :
  content_sum (delete_redundancy 500
    [chunk "A" 0 (text 300); chunk "A" 1 (text 300); chunk "B" 0 (text 300)]) ≤ 500.
Proof.
  apply (proj1 (proj2 (budget_cutoff_prefix_within_budget 500
    [chunk "A" 0 (text 300); chunk "A" 1 (text 300); chunk "B" 0 (text 300)]))).
  lia.
Defined.

(** ** Results and effects *)

Lemma outcome_bind {A B} (m : M A) (k : A → M B) :
  outcome (bind m k) = rbind (outcome m) (fun a => outcome (k a)).
Proof.
  destruct m as [l [a|e]]; simpl; [|done].
  unfold outcome. simpl. by destruct (k a).
Qed.

Lemma emitted_bind {A B} (m : M A) (k : A → M B) :
  emitted (bind m k)
  = emitted m ++ match outcome m with Ok a => emitted (k a) | Raise _ => [] end.
Proof.
  destruct m as [l [a|e]]; unfold emitted, outcome; simpl.
  - by destruct (k a).
  - by rewrite app_nil_r.
Qed.

Lemma outcome_tell (r : LogRecord) : outcome (tell r) = Ok tt.
Proof. done. Qed.

Lemma outcome_ret {A} (a : A) : outcome (ret a) = Ok a.
Proof. done. Qed.

Lemma outcome_lift {A} (r : Result A) : outcome (lift r) = r.
Proof. done. Qed.

Lemma outcome_raise {A} (e : Exception) : outcome (raise e : M A) = Raise e.
Proof. done. Qed.

Lemma bind_ret_r {A} (m : M A) : bind m ret = m.
Proof.
  destruct m as [l [a|e]]; simpl; [|done].
  by rewrite app_nil_r.
Qed.

Lemma map_result_ok {A B} (f : A → Result B) (l : list A) (r : list B) :
  map_result f l = Ok r → Forall2 (fun x y => f x = Ok y) l r.
Proof.
  revert r. induction l as [|x l IH]; intros r H; simpl in H.
  - injection H as <-. constructor.
  - destruct (f x) as [y|e] eqn:Hx; simpl in H; [|discriminate].
    destruct (map_result f l) as [ys|e]; simpl in H; [|discriminate].
    injection H as <-. constructor; [done|by apply IH].
Qed.

Lemma map_result_total {A B} (f : A → Result B) (l : list A) :
  Forall (fun x => ∃ y, f x = Ok y) l → ∃ r, map_result f l = Ok r.
Proof.
  induction 1 as [|x l [y Hy] _ [r Hr]]; simpl.
  - by eexists.
  - rewrite Hy, Hr. simpl. by eexists.
Qed.

Lemma map_result_raise {A B} (f : A → Result B) (l : list A) :
  Exists (fun x => ∃ e, f x = Raise e) l →
  ∃ x e, x ∈ l ∧ f x = Raise e ∧ map_result f l = Raise e.
Proof.
  induction l as [|x l IH]; intros H.
  - by apply Exists_nil in H.
  - simpl. destruct (f x) as [y|e] eqn:Hx; simpl.
    + apply Exists_cons in H as [[e He]|H]; [congruence|].
      destruct (IH H) as (x' & e & Hin & Hf & Hm).
      exists x', e. rewrite Hm. simpl. split; [by right|done].
    + exists x, e. split; [by left|done].
Qed.

(** ** The order on keys *)

Lemma ascii_compare_refl (a : Ascii.ascii) : Ascii.compare a a = Eq.
Proof. apply N.compare_refl. Qed.

Lemma ascii_compare_lt_trans (a b c : Ascii.ascii) :
  Ascii.compare a b = Lt → Ascii.compare b c = Lt → Ascii.compare a c = Lt.
Proof.
  unfold Ascii.compare. rewrite !N.compare_lt_iff. lia.
Qed.

Lemma string_compare_lt_trans (s1 : string) :
  ∀ s2 s3, String.compare s1 s2 = Lt → String.compare s2 s3 = Lt →
           String.compare s1 s3 = Lt.
Proof.
  induction s1 as [|a s1 IH]; intros [|b s2] [|c s3]; simpl; try done.
  destruct (Ascii.compare a b) eqn:Hab; try done;
    destruct (Ascii.compare b c) eqn:Hbc; try done; intros H1 H2.
  - apply Ascii.compare_eq_iff in Hab as ->. apply Ascii.compare_eq_iff in Hbc as ->.
    rewrite ascii_compare_refl. by apply (IH s2).
  - apply Ascii.compare_eq_iff in Hab as ->. by rewrite Hbc.
  - apply Ascii.compare_eq_iff in Hbc as ->. by rewrite Hab.
  - by rewrite (ascii_compare_lt_trans a b c).
Qed.

Lemma string_ltb_trans (s1 s2 s3 : string) :
  String.ltb s1 s2 = true → String.ltb s2 s3 = true → String.ltb s1 s3 = true.
Proof.
  unfold String.ltb.
  destruct (String.compare s1 s2) eqn:H12; try done.
  destruct (String.compare s2 s3) eqn:H23; try done.
  by rewrite (string_compare_lt_trans s1 s2 s3).
Qed.

Lemma string_ltb_asym (s t : string) :
  String.ltb s t = true → String.ltb t s = false.
Proof.
  unfold String.ltb. rewrite (String.compare_antisym s t).
  by destruct (String.compare t s).
Qed.

Lemma string_ltb_total (s t : string) :
  String.ltb t s = false → s ≠ t → String.ltb s t = true.
Proof.
  unfold String.ltb. rewrite (String.compare_antisym s t).
  destruct (String.compare t s) eqn:H; simpl; try done.
  apply String.compare_eq_iff in H. congruence.
Qed.

Lemma pv_lt_trans (a b c : pyval) : pv_lt a b → pv_lt b c → pv_lt a c.
Proof.
  unfold pv_lt. destruct a, b, c; simpl; try done; intros [= H1] [= H2]; f_equal.
  - by apply (string_ltb_trans _ s0).
  - lia.
Qed.

Lemma pv_lt_asym (a b : pyval) : pv_lt a b → py_lt b a = Ok false.
Proof.
  unfold pv_lt. destruct a, b; simpl; try done; intros [= H]; f_equal.
  - by apply string_ltb_asym.
  - lia.
Qed.

Lemma pv_lt_irrefl (a : pyval) : ¬ pv_lt a a.
Proof.
  intros H. pose proof (pv_lt_asym _ _ H) as H'. unfold pv_lt in H. congruence.
Qed.

Lemma py_lt_false (a b : pyval) : py_lt b a = Ok false → a ≠ b → pv_lt a b.
Proof.
  unfold pv_lt. destruct a, b; simpl; try done; intros [= H] Hne; f_equal.
  - apply string_ltb_total; [done|congruence].
  - assert (n ≠ n0) by congruence. lia.
Qed.

Lemma tuple_lt_false (ka kb : Key) : tuple_lt kb ka = Ok false ↔ key_leq ka kb.
Proof.
  unfold tuple_lt, key_leq. destruct ka as [s1 c1], kb as [s2 c2]; simpl.
  destruct (decide (s2 = s1)) as [->|Hs].
  - destruct (decide (c2 = c1)) as [->|Hc].
    + split; [auto|done].
    + split.
      * intros H. right. split; [done|]. right. apply py_lt_false; [done|congruence].
      * intros [H|[_ [H|H]]].
        -- by apply pv_lt_irrefl in H.
        -- congruence.
        -- by apply pv_lt_asym.
  - split.
    + intros H. left. apply py_lt_false; [done|congruence].
    + intros [H|[H _]]; [by apply pv_lt_asym|congruence].
Qed.

Lemma tuple_lt_true (ka kb : Key) : tuple_lt ka kb = Ok true → key_leq ka kb.
Proof.
  unfold tuple_lt, key_leq. destruct ka as [s1 c1], kb as [s2 c2]; simpl.
  destruct (decide (s1 = s2)) as [->|Hs].
  - destruct (decide (c1 = c2)) as [->|Hc]; [done|].
    intros H. right. split; [done|]. by right.
  - intros H. by left.
Qed.

Lemma key_leq_trans (ka kb kc : Key) : key_leq ka kb → key_leq kb kc → key_leq ka kc.
Proof.
  unfold key_leq. destruct ka as [s1 c1], kb as [s2 c2], kc as [s3 c3]; simpl.
  intros [H1|[-> H1]] [H2|[-> H2]].
  - left. by apply (pv_lt_trans _ s2).
  - by left.
  - by left.
  - right. split; [done|].
    destruct H1 as [->|H1]; [done|]. destruct H2 as [->|H2]; [by right|].
    right. by apply (pv_lt_trans _ c2).
Qed.

Lemma decorated_le_trans (p q r : Key * Document) :
  decorated_le p q → decorated_le q r → decorated_le p r.
Proof.
  unfold decorated_le. rewrite !tuple_lt_false. apply key_leq_trans.
Qed.

Lemma tuple_lt_typed (ka kb : Key) :
  typed_key ka → typed_key kb → ∃ b, tuple_lt ka kb = Ok b.
Proof.
  intros (s1 & n1 & ->) (s2 & n2 & ->). unfold tuple_lt. simpl.
  repeat case_decide; by eexists.
Qed.

(** ** Insertion and sorting *)

Lemma insert_sorted_perm (x : Key * Document) (l : list (Key * Document)) :
  ∀ r, insert_sorted x l = Ok r → r ≡ₚ x :: l.
Proof.
  induction l as [|y l IH]; intros r H; simpl in H.
  - by injection H as <-.
  - destruct (tuple_lt y.1 x.1) as [[|]|e]; simpl in H; try discriminate.
    + destruct (insert_sorted x l) as [r'|e]; simpl in H; [|discriminate].
      injection H as <-. rewrite (IH r' eq_refl). apply Permutation_swap.
    + by injection H as <-.
Qed.

Lemma insert_sorted_sorted (x : Key * Document) (l : list (Key * Document)) :
  ∀ r, StronglySorted decorated_le l → insert_sorted x l = Ok r →
       StronglySorted decorated_le r.
Proof.
  induction l as [|y l IH]; intros r Hs H; simpl in H.
  - injection H as <-. repeat constructor.
  - apply StronglySorted_inv in Hs as [Hs Hy].
    destruct (tuple_lt y.1 x.1) as [[|]|e] eqn:Hyx; simpl in H; try discriminate.
    + destruct (insert_sorted x l) as [r'|e] eqn:Hr; simpl in H; [|discriminate].
      injection H as <-. constructor; [by apply IH|].
      rewrite (insert_sorted_perm x l r' Hr). constructor; [|done].
      unfold decorated_le. apply tuple_lt_false. by apply tuple_lt_true.
    + injection H as <-. constructor; [by constructor|].
      constructor; [done|].
      eapply Forall_impl; [exact Hy|]. intros z Hz.
      by apply (decorated_le_trans x y z).
Qed.

Lemma insert_sorted_total (x : Key * Document) (l : list (Key * Document)) :
  typed_key x.1 → Forall (fun p => typed_key p.1) l → ∃ r, insert_sorted x l = Ok r.
Proof.
  intros Hx. induction 1 as [|y l Hy _ [r Hr]]; simpl.
  - by eexists.
  - destruct (tuple_lt_typed y.1 x.1 Hy Hx) as [[|] ->]; simpl.
    + rewrite Hr. simpl. by eexists.
    + by eexists.
Qed.

Lemma sort_decorated_perm (l : list (Key * Document)) :
  ∀ r, sort_decorated l = Ok r → r ≡ₚ l.
Proof.
  induction l as [|x l IH]; intros r H; simpl in H.
  - by injection H as <-.
  - destruct (sort_decorated l) as [s|e]; simpl in H; [|discriminate].
    rewrite (insert_sorted_perm x s r H). by rewrite (IH s eq_refl).
Qed.

Lemma sort_decorated_sorted (l : list (Key * Document)) :
  ∀ r, sort_decorated l = Ok r → StronglySorted decorated_le r.
Proof.
  induction l as [|x l IH]; intros r H; simpl in H.
  - injection H as <-. constructor.
  - destruct (sort_decorated l) as [s|e]; simpl in H; [|discriminate].
    apply (insert_sorted_sorted x s); [by apply IH|done].
Qed.

Lemma sort_decorated_total (l : list (Key * Document)) :
  Forall (fun p => typed_key p.1) l → ∃ r, sort_decorated l = Ok r.
Proof.
  induction 1 as [|x l Hx Hl [s Hs]]; simpl.
  - by eexists.
  - rewrite Hs. simpl. apply insert_sorted_total; [done|].
    by rewrite (sort_decorated_perm l s Hs).
Qed.

Lemma sort_key_well_keyed (d : Document) :
  well_keyed d → ∃ k, sort_key d = Ok k ∧ typed_key k.
Proof.
  intros (s & n & Hs & Hn). exists (PStr s, PInt n).
  unfold sort_key, getitem. rewrite Hs, Hn. simpl. split; [done|by exists s, n].
Qed.

Lemma sort_key_raise (d : Document) (e : Exception) :
  sort_key d = Raise e → e = KeyError "source" ∨ e = KeyError "chunk_index".
Proof.
  unfold sort_key, getitem.
  destruct (metadata d !! "source"); simpl; [|intros [= <-]; by left].
  destruct (metadata d !! "chunk_index"); simpl; [done|intros [= <-]; by right].
Qed.

Lemma sort_key_missing (d : Document) :
  metadata d !! "source" = None ∨ metadata d !! "chunk_index" = None →
  ∃ e, sort_key d = Raise e.
Proof.
  unfold sort_key, getitem. intros [H|H].
  - rewrite H. simpl. by eexists.
  - destruct (metadata d !! "source"); simpl; [|by eexists].
    rewrite H. simpl. by eexists.
Qed.

Lemma decorate_ok (docs : list Document) (decorated : list (Key * Document)) :
  map_result (fun x => k <-? sort_key x ;; Ok (k, x)) docs = Ok decorated →
  decorated.*2 = docs ∧ Forall (fun p => sort_key p.2 = Ok p.1) decorated.
Proof.
  intros H. apply map_result_ok in H.
  induction H as [|d p docs decorated Hd _ [IH1 IH2]]; simpl; [done|].
  destruct (sort_key d) as [k|e] eqn:Hk; simpl in Hd; [|discriminate].
  injection Hd as <-. simpl. split; [by f_equal|]. by constructor.
Qed.

Lemma decorated_sorted_key_le (s : list (Key * Document)) :
  Forall (fun p => sort_key p.2 = Ok p.1) s →
  StronglySorted decorated_le s → StronglySorted key_le (s.*2).
Proof.
  intros Hk Hs. induction Hs as [|p s Hs IH Hp]; simpl; [constructor|].
  apply Forall_cons in Hk as [Hp1 Hk].
  constructor; [by apply IH|].
  apply Forall_fmap. rewrite Forall_forall in Hp, Hk. apply Forall_forall.
  intros q Hq. simpl. exists p.1, q.1. split; [done|]. split; [by apply Hk|].
  by apply Hp.
Qed.

Lemma sorted_ok (docs res : list Document) :
  sorted docs = Ok res → res ≡ₚ docs ∧ StronglySorted key_le res.
Proof.
  unfold sorted. intros H.
  destruct (map_result _ docs) as [decorated|e] eqn:Hd; simpl in H; [|discriminate].
  destruct (sort_decorated decorated) as [s|e] eqn:Hs; simpl in H; [|discriminate].
  injection H as <-. apply decorate_ok in Hd as [Hd1 Hd2].
  pose proof (sort_decorated_perm decorated s Hs) as Hp.
  split.
  - rewrite <- Hd1. by apply fmap_Permutation.
  - apply decorated_sorted_key_le; [by rewrite Hp|].
    by apply (sort_decorated_sorted decorated).
Qed.

Lemma sorted_total (docs : list Document) :
  Forall well_keyed docs → ∃ res, sorted docs = Ok res.
Proof.
  intros Hw. unfold sorted.
  assert (∃ decorated,
    map_result (fun x => k <-? sort_key x ;; Ok (k, x)) docs = Ok decorated
    ∧ Forall (fun p => typed_key p.1) decorated) as (decorated & -> & Ht).
  { induction Hw as [|d docs Hd _ (dec & Hdec & Ht)]; simpl.
    - eexists. split; [done|constructor].
    - destruct (sort_key_well_keyed d Hd) as (k & -> & Hk). simpl.
      rewrite Hdec. simpl. eexists. split; [done|]. by constructor. }
  simpl. destruct (sort_decorated_total decorated Ht) as [s ->]. simpl. by eexists.
Qed.

Lemma sorted_key_error (docs : list Document) :
  Exists (fun d => metadata d !! "source" = None ∨ metadata d !! "chunk_index" = None) docs →
  ∃ k, (k = "source" ∨ k = "chunk_index") ∧ sorted docs = Raise (KeyError k).
Proof.
  intros H. unfold sorted.
  destruct (map_result_raise (fun x => k <-? sort_key x ;; Ok (k, x)) docs)
    as (d & e & _ & Hd & ->).
  { eapply Exists_impl; [exact H|]. intros d Hd. simpl in Hd.
    destruct (sort_key_missing d Hd) as [e ->]. simpl. by eexists. }
  simpl. destruct (sort_key d) as [k|e'] eqn:Hk; simpl in Hd; [discriminate|].
  injection Hd as <-. apply sort_key_raise in Hk as [-> | ->]; eexists; eauto.
Qed.

(** ** The fused retriever *)

Lemma invoke_all_outcome (ra : bool) (query cn : string) (rs : list Retriever) :
  ∀ position outs,
    outcome (invoke_all ra query cn rs position) = Ok outs →
    outs = answered query cn rs.
Proof.
  unfold answered.
  induction rs as [|r rs IH]; intros n outs H; cbn [invoke_all omap list_omap] in *.
  - by injection H as <-.
  - destruct (r query cn) as [docs|e].
    + rewrite outcome_bind in H.
      destruct (outcome (invoke_all ra query cn rs (S n))) as [rest|e] eqn:Hr;
        simpl in H; [|discriminate].
      injection H as <-. f_equal. by apply (IH (S n)).
    + destruct ra; [discriminate|].
      rewrite outcome_bind in H. simpl in H. by apply (IH (S n)).
Qed.


Lemma get_relevant_documents_outcome (self : EnsembleRetriever)
    (query cn : string) (fused : list Document) :
  outcome (get_relevant_documents self query cn) = Ok fused →
  fused = dedup_merge query cn (retrievers self).
Proof.
  unfold get_relevant_documents. rewrite outcome_bind.
  destruct (outcome (invoke_all _ _ _ _ _)) as [outs|e] eqn:H; simpl; [|done].
  intros [= <-]. apply invoke_all_outcome in H. by subst outs.
Qed.



(** ** The requests *)

Lemma retrieval_and_rerank_outcome (self : BishengRAGTool) (query : string) :
  outcome (retrieval_and_rerank self query)
  = (docs <-? outcome (get_relevant_documents (retriever self) query (collection_name self)) ;;
     let docs := delete_redundancy (max_content (generate (params self))) docs in
     if sort_by_source_and_index self then sorted docs else Ok docs).
Proof.
  unfold retrieval_and_rerank. rewrite outcome_bind.
  destruct (outcome (get_relevant_documents _ _ _)) as [docs|e]; [|done].
  cbn [rbind]. rewrite outcome_bind, outcome_tell. cbn [rbind].
  rewrite outcome_bind, outcome_tell. cbn [rbind].
  destruct (sort_by_source_and_index self).
  - by rewrite outcome_bind, outcome_tell.
  - done.
Qed.

Lemma run_outcome (self : BishengRAGTool) (query : string) :
  outcome (run self query)
  = (docs <-? outcome (retrieval_and_rerank self query) ;;
     match qa_chain self docs query with
     | Ok ans => getitem ans "output_text"
     | Raise e => Raise (NameError "question")
     end).
Proof.
  unfold run. rewrite outcome_bind.
  destruct (outcome (retrieval_and_rerank self query)) as [docs|e]; [|done].
  cbn [rbind]. rewrite outcome_bind.
  destruct (qa_chain self docs query) as [ans|e].
  - rewrite outcome_ret. cbn [rbind]. rewrite outcome_bind, outcome_lift.
    by destruct (getitem ans "output_text").
  - unfold unbound_name. by rewrite outcome_bind, outcome_raise.
Qed.

Lemma sort_flag_with_sort_flag (b : bool) (self : BishengRAGTool) :
  sort_by_source_and_index (with_sort_flag b self) = b.
Proof.
  unfold sort_by_source_and_index, with_sort_flag. simpl.
  by rewrite lookup_insert_eq.
Qed.

Lemma content_sum_zero (zs : list Document) :
  Forall (fun d => len d = 0) zs → content_sum zs = 0.
Proof. induction 1 as [|d zs Hd _ IH]; simpl; lia. Qed.

(** ** The claims *)

(** C9.  A chunk of length 0 never triggers the cutoff: when the chunks in
    front of it fit the budget it is included too, whatever follows; in
    particular with [max_content = 0] the zero-length chunks at the front of
    the fused list survive. *)
Theorem zero_length_chunks_survive :
  (∀ (max_content : Z) (pre : list Document) (d : Document) (post : list Document),
     len d = 0 → content_sum pre ≤ max_content →
     (pre ++ [d]) `prefix_of` delete_redundancy max_content (pre ++ d :: post))
  ∧ (∀ (zs rest : list Document),
       Forall (fun d => len d = 0) zs →
       zs `prefix_of` delete_redundancy 0 (zs ++ rest)).
Proof.
  split.
  - intros max_content pre d post Hd Hpre.
    rewrite delete_redundancy_counted, (cons_middle d pre post), app_assoc.
    rewrite counted_app.
    + by apply prefix_app_r.
    + rewrite content_sum_app. simpl. lia.
  - intros zs rest Hz. rewrite delete_redundancy_counted, counted_app.
    + by apply prefix_app_r.
    + rewrite (content_sum_zero zs Hz). lia.
Qed.

Lemma zero_length_chunks_survive_witness :
  [chunk "A" 0 ""; chunk "A" 1 ""]
    `prefix_of` delete_redundancy 0 ([chunk "A" 0 ""; chunk "A" 1 ""] ++ [chunk "B" 0 "text"]).
Proof.
  apply (proj2 zero_length_chunks_survive).
  repeat constructor.
Defined.

(** C4.  Enabling [sort_by_source_and_index] does not change which chunks
    survive the budget cutoff: whatever the call returns with the flag set is
    a permutation of what it returns without the flag, namely the sort of
    that truncated context, in ascending order of [(source, chunk_index)];
    and the call with the flag set does return whenever the surviving chunks
    carry a text source and an integer chunk index. *)
Theorem reorder_after_truncation :
  ∀ (self : BishengRAGTool) (query : string),
    (∀ ctx',
       outcome (retrieval_and_rerank (with_sort_flag true self) query) = Ok ctx' →
       ∃ ctx,
         outcome (retrieval_and_rerank (with_sort_flag false self) query) = Ok ctx
         ∧ ctx' ≡ₚ ctx
         ∧ sorted ctx = Ok ctx'
         ∧ StronglySorted key_le ctx')
    ∧ (∀ ctx,
         outcome (retrieval_and_rerank (with_sort_flag false self) query) = Ok ctx →
         Forall well_keyed ctx →
         ∃ ctx', outcome (retrieval_and_rerank (with_sort_flag true self) query) = Ok ctx').
Proof.
  intros self query.
  rewrite !retrieval_and_rerank_outcome, !sort_flag_with_sort_flag.
  change (retriever (with_sort_flag true self)) with (retriever self).
  change (retriever (with_sort_flag false self)) with (retriever self).
  change (collection_name (with_sort_flag true self)) with (collection_name self).
  change (collection_name (with_sort_flag false self)) with (collection_name self).
  change (generate (params (with_sort_flag true self))) with (generate (params self)).
  change (generate (params (with_sort_flag false self))) with (generate (params self)).
  destruct (outcome (get_relevant_documents _ _ _)) as [docs|e]; cbn [rbind].
  - split.
    + intros ctx' H. eexists. split; [done|].
      destruct (sorted_ok _ _ H) as [Hp Hs]. done.
    + intros ctx [= <-] Hw. by apply sorted_total.
  - split; [done|]. intros ctx H. discriminate.
Qed.

Lemma reorder_after_truncation_witness :
  ∃ ctx,
    outcome (retrieval_and_rerank
      (with_sort_flag false
         (sample_tool [Ok [chunk "A" 1 (text 300); chunk "A" 0 (text 300);
                           chunk "B" 0 (text 300)]] counting_chain 700 false)) "q")
      = Ok ctx
    ∧ [chunk "A" 0 (text 300); chunk "A" 1 (text 300)] ≡ₚ ctx
    ∧ sorted ctx = Ok [chunk "A" 0 (text 300); chunk "A" 1 (text 300)]
    ∧ StronglySorted key_le [chunk "A" 0 (text 300); chunk "A" 1 (text 300)].
Proof.
  apply (proj1 (reorder_after_truncation _ "q")).
  vm_compute. reflexivity.
Defined.

(** C10.  With [sort_by_source_and_index] enabled, if some chunk that
    survives the budget cutoff lacks the [source] or the [chunk_index] entry
    of its metadata, [retrieval_and_rerank] raises the [KeyError] of the
    sort-key lookup instead of returning a context; so whenever it returns,
    every surviving chunk carries both entries. *)
Theorem reorder_requires_metadata_keys :
  ∀ (self : BishengRAGTool) (query : string) (fused : list Document),
    sort_by_source_and_index self = true →
    outcome (get_relevant_documents (retriever self) query (collection_name self))
      = Ok fused →
    let survivors := delete_redundancy (max_content (generate (params self))) fused in
    (Exists (fun d => metadata d !! "source" = None ∨ metadata d !! "chunk_index" = None)
       survivors →
     ∃ k, (k = "source" ∨ k = "chunk_index")
          ∧ outcome (retrieval_and_rerank self query) = Raise (KeyError k))
    ∧ (∀ ctx,
         outcome (retrieval_and_rerank self query) = Ok ctx →
         Forall (fun d => is_Some (metadata d !! "source")
                          ∧ is_Some (metadata d !! "chunk_index")) survivors).
Proof.
  intros self query fused Hflag Hfused survivors.
  rewrite retrieval_and_rerank_outcome, Hfused, Hflag. cbn [rbind].
  fold survivors. split.
  - apply sorted_key_error.
  - intros ctx Hs. apply Forall_forall. intros d Hd.
    destruct (metadata d !! "source") as [s|] eqn:H1;
      destruct (metadata d !! "chunk_index") as [c|] eqn:H2; [by split| | |].
    all: destruct (sorted_key_error survivors) as (k & _ & Hk); [|congruence].
    all: apply Exists_exists; exists d; split; [done|]; auto.
Qed.

Lemma reorder_requires_metadata_keys_witness :
  ∃ k, (k = "source" ∨ k = "chunk_index")
       ∧ outcome (retrieval_and_rerank
           (sample_tool [Ok [chunk "A" 0 "text"; chunk_without_index "B" "more"]]
              counting_chain 500 true) "q")
         = Raise (KeyError k).
Proof.
  refine (proj1 (reorder_requires_metadata_keys
    (sample_tool [Ok [chunk "A" 0 "text"; chunk_without_index "B" "more"]]
       counting_chain 500 true) "q"
    [chunk "A" 0 "text"; chunk_without_index "B" "more"] _ _) _).
  - vm_compute. reflexivity.
  - vm_compute. reflexivity.
  - apply Exists_cons_tl, Exists_cons_hd. right. vm_compute. reflexivity.
Defined.

(** C2.  When the chain call raises, [run] does not return the failure as
    answer text: the handler reads the unbound name [question], so
    [NameError] leaves [run], and the handler logs nothing. *)
Theorem chain_failure_escapes_run :
  ∀ (self : BishengRAGTool) (query : string) (docs : list Document) (e : Exception),
    outcome (retrieval_and_rerank self query) = Ok docs →
    qa_chain self docs query = Raise e →
    outcome (run self query) = Raise (NameError "question")
    ∧ emitted (run self query) = emitted (retrieval_and_rerank self query).
Proof.
  intros self query docs e Hdocs He. split.
  - rewrite run_outcome, Hdocs. cbn [rbind]. by rewrite He.
  - unfold run. rewrite emitted_bind, Hdocs, emitted_bind, He.
    unfold unbound_name. rewrite emitted_bind, outcome_bind, outcome_raise.
    cbn [rbind]. unfold emitted at 2 3. simpl. by rewrite !app_nil_r.
Qed.

Lemma chain_failure_escapes_run_witness :
  outcome (run (sample_tool [Ok [chunk "A" 0 "text"]] failing_chain 500 false) "q")
    = Raise (NameError "question")
  ∧ emitted (run (sample_tool [Ok [chunk "A" 0 "text"]] failing_chain 500 false) "q")
    = emitted (retrieval_and_rerank
                 (sample_tool [Ok [chunk "A" 0 "text"]] failing_chain 500 false) "q").
Proof.
  apply (chain_failure_escapes_run
    (sample_tool [Ok [chunk "A" 0 "text"]] failing_chain 500 false) "q"
    [chunk "A" 0 "text"] (TimeoutError "timed out")).
  - vm_compute. reflexivity.
  - reflexivity.
Defined.










(** ** Deduplication *)

Lemma dedup_seen_not_seen (docs : list Document) :
  ∀ seen d, d ∈ dedup_seen seen docs → identity d ∉ seen.
Proof.
  induction docs as [|d0 docs IH]; intros seen d Hd; simpl in Hd.
  - by apply elem_of_nil in Hd.
  - destruct (decide (identity d0 ∈ seen)) as [Hin|Hnin].
    + by apply IH.
    + apply elem_of_cons in Hd as [->|Hd]; [done|].
      apply IH in Hd. by apply not_elem_of_cons in Hd as [_ Hd].
Qed.

Lemma dedup_seen_NoDup (docs : list Document) :
  ∀ seen, NoDup (identity <$> dedup_seen seen docs).
Proof.
  induction docs as [|d0 docs IH]; intros seen; simpl.
  - constructor.
  - destruct (decide (identity d0 ∈ seen)) as [Hin|Hnin]; [apply IH|].
    rewrite fmap_cons. apply NoDup_cons. split; [|apply IH].
    intros Hd. apply list_elem_of_fmap in Hd as (d & Heq & Hd).
    apply dedup_seen_not_seen in Hd. apply Hd. rewrite <- Heq. by left.
Qed.

Lemma dedup_seen_sublist (docs : list Document) :
  ∀ seen, dedup_seen seen docs `sublist_of` docs.
Proof.
  induction docs as [|d0 docs IH]; intros seen; simpl.
  - constructor.
  - destruct (decide (identity d0 ∈ seen)).
    + by apply sublist_cons.
    + by apply sublist_skip.
Qed.

Lemma dedup_seen_first (docs : list Document) :
  ∀ seen d,
    d ∈ dedup_seen seen docs
    ↔ ∃ pre post, docs = pre ++ d :: post
                  ∧ (identity d ∉ seen) ∧ identity d ∉ (identity <$> pre).
Proof.
  induction docs as [|d0 docs IH]; intros seen d; simpl.
  - split.
    + intros H. by apply elem_of_nil in H.
    + intros (pre & post & H & _). by destruct pre.
  - destruct (decide (identity d0 ∈ seen)) as [Hin|Hnin].
    + rewrite IH. split.
      * intros (pre & post & -> & Hs & Hp). exists (d0 :: pre), post.
        split; [done|]. split; [done|].
        rewrite fmap_cons. apply not_elem_of_cons. split; [congruence|done].
      * intros (pre & post & Heq & Hs & Hp). destruct pre as [|p pre]; simpl in Heq.
        -- injection Heq as -> _. done.
        -- injection Heq as -> ->. exists pre, post. split; [done|]. split; [done|].
           rewrite fmap_cons in Hp. by apply not_elem_of_cons in Hp as [_ Hp].
    + rewrite elem_of_cons, IH. split.
      * intros [->|(pre & post & -> & Hs & Hp)].
        -- exists [], docs. split; [done|]. split; [done|]. apply not_elem_of_nil.
        -- apply not_elem_of_cons in Hs as [Hne Hs].
           exists (d0 :: pre), post. split; [done|]. split; [done|].
           rewrite fmap_cons. by apply not_elem_of_cons.
      * intros (pre & post & Heq & Hs & Hp). destruct pre as [|p pre]; simpl in Heq.
        -- injection Heq as -> _. by left.
        -- injection Heq as -> ->. right. exists pre, post. split; [done|].
           rewrite fmap_cons in Hp. apply not_elem_of_cons in Hp as [Hne Hp].
           split; [|done]. by apply not_elem_of_cons.
Qed.

(** C6.  Whatever the ensemble returns carries no identity
    [(source, chunk_index)] twice; it keeps the order of the concatenated
    outputs of the retrievers, and its chunks are exactly the first-seen
    instances in configuration order: a chunk is kept if and only if it
    stands at a place of the concatenation before which its identity does not
    occur.  Scores are not consulted. *)
Theorem fused_identities_unique_first_seen :
  ∀ (self : EnsembleRetriever) (query collection : string) (fused : list Document),
    outcome (get_relevant_documents self query collection) = Ok fused →
    let merged := concat (answered query collection (retrievers self)) in
    NoDup (identity <$> fused)
    ∧ fused `sublist_of` merged
    ∧ (∀ d, d ∈ fused
            ↔ ∃ pre post, merged = pre ++ d :: post ∧ identity d ∉ (identity <$> pre)).
Proof.
  intros self query collection fused H merged.
  apply get_relevant_documents_outcome in H. subst fused.
  unfold dedup_merge, dedup. fold merged. split; [apply dedup_seen_NoDup|].
  split; [apply dedup_seen_sublist|].
  intros d. rewrite dedup_seen_first. split.
  - intros (pre & post & Heq & _ & Hp). eauto.
  - intros (pre & post & Heq & Hp). exists pre, post.
    split; [done|]. split; [apply not_elem_of_nil|done].
Qed.

Lemma fused_identities_unique_first_seen_witness :
  NoDup (identity <$> [chunk "A" 0 "first"; chunk "B" 0 "other"])
  ∧ [chunk "A" 0 "first"; chunk "B" 0 "other"]
      `sublist_of` [chunk "A" 0 "first"; chunk "A" 0 "second"; chunk "B" 0 "other"]
  ∧ (∀ d, d ∈ [chunk "A" 0 "first"; chunk "B" 0 "other"]
          ↔ ∃ pre post,
              [chunk "A" 0 "first"; chunk "A" 0 "second"; chunk "B" 0 "other"]
              = pre ++ d :: post
              ∧ identity d ∉ (identity <$> pre)).
Proof.
  apply (fused_identities_unique_first_seen
    (mkEnsembleRetriever
       [fixed_retriever (Ok [chunk "A" 0 "first"]);
        fixed_retriever (Ok [chunk "A" 0 "second"; chunk "B" 0 "other"])] false)
    "q" "collection").
  vm_compute. reflexivity.
Defined.

(** ** A budget of zero *)

(** C5, as stated, fails: with [max_content = 0] a leading chunk of empty
    content survives the cutoff, and the chain is called with it. *)
Lemma zero_budget_context_not_empty :
  max_content (generate (params
    (sample_tool [Ok [chunk "A" 0 ""; chunk "A" 1 "text"]] counting_chain 0 false))) = 0
  ∧ outcome (retrieval_and_rerank
      (sample_tool [Ok [chunk "A" 0 ""; chunk "A" 1 "text"]] counting_chain 0 false) "q")
    = Ok [chunk "A" 0 ""]
  ∧ outcome (retrieval_and_rerank
      (sample_tool [Ok [chunk "A" 0 ""; chunk "A" 1 "text"]] counting_chain 0 false) "q")
    ≠ Ok []
  ∧ outcome (run
      (sample_tool [Ok [chunk "A" 0 ""; chunk "A" 1 "text"]] counting_chain 0 false) "q")
    = Ok "x".
Proof.
  split; [reflexivity|].
  assert (outcome (retrieval_and_rerank
      (sample_tool [Ok [chunk "A" 0 ""; chunk "A" 1 "text"]] counting_chain 0 false) "q")
    = Ok [chunk "A" 0 ""]) as H by (vm_compute; reflexivity).
  split; [exact H|]. split.
  - rewrite H. discriminate.
  - vm_compute. reflexivity.
Qed.

(** C5, amended.  With [max_content = 0] the chunks that survive the cutoff
    are exactly the leading chunks of empty content of the fused list: none
    when the first candidate has content, and never any content in total.
    [retrieval_and_rerank] returns them (sorted when the flag is set), the
    chain is called with that context, and when the chain returns an
    [output_text], [run] returns it. *)
Theorem zero_budget_context :
  ∀ (self : BishengRAGTool) (query : string) (fused : list Document),
    max_content (generate (params self)) = 0 →
    outcome (get_relevant_documents (retriever self) query (collection_name self))
      = Ok fused →
    delete_redundancy 0 fused = leading_empty fused
    ∧ content_sum (leading_empty fused) = 0
    ∧ Forall (fun d => page_content d = "") (leading_empty fused)
    ∧ (∀ d rest, fused = d :: rest → page_content d ≠ "" → leading_empty fused = [])
    ∧ outcome (retrieval_and_rerank self query)
      = (if sort_by_source_and_index self then sorted (leading_empty fused)
         else Ok (leading_empty fused))
    ∧ (∀ ctx ans s,
         outcome (retrieval_and_rerank self query) = Ok ctx →
         qa_chain self ctx query = Ok ans →
         ans !! "output_text" = Some s →
         outcome (run self query) = Ok s).
Proof.
  intros self query fused Hmax Hfused.
  assert (delete_redundancy 0 fused = leading_empty fused) as Hcut
    by (by rewrite delete_redundancy_counted, counted_zero_budget).
  split; [done|]. split; [apply leading_empty_sum|]. split; [apply leading_empty_all|].
  split; [|split].
  - intros d rest -> Hd. simpl. destruct (decide (len d = 0)) as [Hz|]; [|done].
    unfold len in Hz. destruct (page_content d); [done|simpl in Hz; lia].
  - by rewrite retrieval_and_rerank_outcome, Hfused, Hmax; cbn [rbind]; rewrite Hcut.
  - intros ctx ans s Hctx Hans Hs.
    rewrite run_outcome, Hctx. cbn [rbind]. rewrite Hans. unfold getitem. by rewrite Hs.
Qed.

Lemma zero_budget_context_witness :
  delete_redundancy 0 [chunk "A" 0 ""; chunk "A" 1 "text"]
    = leading_empty [chunk "A" 0 ""; chunk "A" 1 "text"]
  ∧ content_sum (leading_empty [chunk "A" 0 ""; chunk "A" 1 "text"]) = 0.
Proof.
  destruct (zero_budget_context
    (sample_tool [Ok [chunk "A" 0 ""; chunk "A" 1 "text"]] counting_chain 0 false) "q"
    [chunk "A" 0 ""; chunk "A" 1 "text"]) as (H1 & H2 & _).
  - reflexivity.
  - vm_compute. reflexivity.
  - exact (conj H1 H2).
Defined.

(** ** The non-blocking entry point *)

(** C8.  Awaiting [arun] gives exactly what [run] gives on the same query:
    the same answer or the same exception, and the same log records. *)
Theorem arun_same_as_run :
  ∀ (self : BishengRAGTool) (query : string),
    await (arun self query) = run self query.
Proof.
  intros self query. unfold await, arun. apply bind_ret_r.
Qed.

(** ** Construction *)

Lemma retriever_classes_unknown (t : string) :
  t ∉ known_types → retriever_classes !! t = None.
Proof.
  unfold known_types, retriever_classes. intros H.
  repeat (apply not_elem_of_cons in H as [? H]).
  repeat (rewrite lookup_insert_ne by done). by apply lookup_singleton_ne.
Qed.

Section ConstructionProperties.

Variables Milvus ElasticKeywordsSearch LanguageModelLike : Type.
Variables SplitterClass Splitter Prompt : Type.
Variable import_by_type : string → pyval → Result SplitterClass.
Variable new_splitter : SplitterClass → gmap string pyval → Result Splitter.
Variable new_retriever :
  RetrieverClass → gmap string (Kwarg Milvus ElasticKeywordsSearch Splitter) → Result Retriever.
Variable import_class : string → Result Prompt.
Variable load_qa_chain : LanguageModelLike → string → option Prompt → Result Chain.

Lemma post_init_retriever_unknown (t : string) (vector_store : Milvus)
    (keyword_store : ElasticKeywordsSearch)
    (splitter_kwargs : list (string * gmap string pyval))
    (retrieval_kwargs : list (string * pyval)) :
  t ∉ known_types →
  _post_init_retriever _ _ _ _ import_by_type new_splitter new_retriever
    t vector_store keyword_store splitter_kwargs retrieval_kwargs
  = Raise (ValueError ("Unknown retriever type: " +:+ t)).
Proof.
  intros H. unfold _post_init_retriever. by rewrite retriever_classes_unknown.
Qed.

Lemma init_retriever_list_unknown (vector_store : Milvus)
    (keyword_store : ElasticKeywordsSearch) (retriever_configs : list RetrieverConfig) :
  Exists unknown_type retriever_configs →
  ∃ e, init_retriever_list _ _ _ _ import_by_type new_splitter new_retriever
         vector_store keyword_store retriever_configs = Raise e.
Proof.
  induction 1 as [r rest (t & Ht & Hunknown)|r rest _ [e IH]];
    cbn [init_retriever_list].
  - rewrite Ht. cbn [entry rbind].
    destruct (splitter r) as [sk|]; cbn [entry rbind]; [|by eexists].
    destruct (retrieval r) as [rk|]; cbn [entry rbind]; [|by eexists].
    rewrite post_init_retriever_unknown by done. by eexists.
  - destruct (entry "type" (type r)) as [t|]; cbn [rbind]; [|by eexists].
    destruct (entry "splitter" (splitter r)) as [sk|]; cbn [rbind]; [|by eexists].
    destruct (entry "retrieval" (retrieval r)) as [rk|]; cbn [rbind]; [|by eexists].
    destruct (_post_init_retriever _ _ _ _ _ _ _ _ _ _ _ _) as [x|];
      cbn [rbind]; [|by eexists].
    rewrite IH. by eexists.
Qed.

(** A successful loop built one retriever per entry, in configuration order,
    each from an entry of a known type. *)
Lemma init_retriever_list_ok (vector_store : Milvus)
    (keyword_store : ElasticKeywordsSearch) (retriever_configs : list RetrieverConfig) :
  ∀ rs,
    init_retriever_list _ _ _ _ import_by_type new_splitter new_retriever
      vector_store keyword_store retriever_configs = Ok rs →
    Forall2 (fun cfg r =>
      ∃ t sk rk,
        type cfg = Some t ∧ t ∈ known_types
        ∧ splitter cfg = Some sk ∧ retrieval cfg = Some rk
        ∧ _post_init_retriever _ _ _ _ import_by_type new_splitter new_retriever
            t vector_store keyword_store sk rk = Ok r)
      retriever_configs rs.
Proof.
  induction retriever_configs as [|cfg rest IH]; intros rs H;
    cbn [init_retriever_list] in H.
  - injection H as <-. constructor.
  - destruct (type cfg) as [t|] eqn:Ht; cbn [entry rbind] in H; [|discriminate].
    destruct (splitter cfg) as [sk|] eqn:Hsk; cbn [entry rbind] in H; [|discriminate].
    destruct (retrieval cfg) as [rk|] eqn:Hrk; cbn [entry rbind] in H; [|discriminate].
    destruct (_post_init_retriever _ _ _ _ _ _ _ _ _ _ _ _) as [r|] eqn:Hr;
      cbn [rbind] in H; [|discriminate].
    destruct (init_retriever_list _ _ _ _ _ _ _ _ _ rest) as [rs'|] eqn:Hrest;
      cbn [rbind] in H; [|discriminate].
    injection H as <-. constructor; [|by apply IH].
    exists t, sk, rk. repeat (split; [done|]). split; [|done].
    destruct (decide (t ∈ known_types)) as [|Hn]; [done|].
    rewrite post_init_retriever_unknown in Hr by done. discriminate.
Qed.

(** C7.  A retriever list with an entry whose type is none of the four
    variants cannot be constructed: [_post_init_retriever] raises
    [ValueError] on such a type before it touches a collaborator, and
    [__init__] raises, so that no tool exists on which a request could run. *)
Theorem unknown_retriever_type_fails_construction :
  (∀ t vector_store keyword_store splitter_kwargs retrieval_kwargs,
     t ∉ known_types →
     _post_init_retriever _ _ _ _ import_by_type new_splitter new_retriever
       t vector_store keyword_store splitter_kwargs retrieval_kwargs
     = Raise (ValueError ("Unknown retriever type: " +:+ t)))
  ∧ (∀ vector_store keyword_store llm collection_name params,
       Exists unknown_type (retriever_entries params) →
       ∃ e, __init__ _ _ _ _ _ _ import_by_type new_splitter new_retriever
              import_class load_qa_chain
              vector_store keyword_store llm collection_name params
            = Raise e).
Proof.
  split.
  - intros. by apply post_init_retriever_unknown.
  - intros vs ks llm cn ps H. unfold __init__.
    destruct (init_retriever_list_unknown vs ks _ H) as [e ->]. by eexists.
Qed.

End ConstructionProperties.

Lemma unknown_retriever_type_fails_construction_witness :
  ∃ e, __init__ unit unit unit unit unit unit
         (fun _ _ => Ok tt) (fun _ _ => Ok tt)
         (fun _ _ => Ok (fixed_retriever (Ok []))) (fun _ => Ok tt)
         (fun _ _ _ => Ok counting_chain)
         tt tt tt "collection"
         (mkParams
            [mkRetrieverConfig (Some "KeywordRetriever") (Some []) (Some []);
             mkRetrieverConfig (Some "FancyRetriever") (Some []) (Some [])]
            (mkGenerate 500 "stuff" None) ∅)
       = Raise e.
Proof.
  apply (proj2 (unknown_retriever_type_fails_construction unit unit unit unit unit unit
    (fun _ _ => Ok tt) (fun _ _ => Ok tt)
    (fun _ _ => Ok (fixed_retriever (Ok []))) (fun _ => Ok tt)
    (fun _ _ _ => Ok counting_chain))).
  apply Exists_cons_tl, Exists_cons_hd.
  exists "FancyRetriever". split; [reflexivity|].
  unfold known_types. intros H.
  repeat (apply elem_of_cons in H as [H|H]; [discriminate|]).
  by apply elem_of_nil in H.
Defined.

(** ** The scenarios of the specification *)

Example scenario_budget_500 :
  delete_redundancy 500
    [chunk "A" 0 (text 300); chunk "A" 1 (text 300); chunk "B" 0 (text 300)]
  = [chunk "A" 0 (text 300)].
Proof. vm_compute. reflexivity. Qed.

Example scenario_budget_700_sorted :
  outcome (retrieval_and_rerank
    (sample_tool [Ok [chunk "A" 0 (text 300); chunk "A" 1 (text 300);
                      chunk "B" 0 (text 300)]] counting_chain 700 true) "q")
  = Ok [chunk "A" 0 (text 300); chunk "A" 1 (text 300)].
Proof. vm_compute. reflexivity. Qed.

Example scenario_reordered :
  outcome (retrieval_and_rerank
    (sample_tool [Ok [chunk "A" 1 (text 300); chunk "A" 0 (text 300)]]
       counting_chain 700 true) "q")
  = Ok [chunk "A" 0 (text 300); chunk "A" 1 (text 300)].
Proof. vm_compute. reflexivity. Qed.

(** A single candidate larger than the budget leaves no context, and the
    chain is still called. *)
Example scenario_oversized_candidate :
  run (sample_tool [Ok [chunk "A" 0 (text 300)]] counting_chain 200 false) "q"
  = ([InfoDocsOrigin 1; InfoDocsAfterDeleteRedundancy 0], Ok "").
Proof. vm_compute. reflexivity. Qed.

(** A negative budget leaves no context; its content sum, 0, is above the
    budget. *)
Example scenario_negative_budget :
  delete_redundancy (-1) [chunk "A" 0 ""; chunk "A" 1 "text"] = [].
Proof. vm_compute. reflexivity. Qed.

(** Sorting before the cutoff would keep another chunk than the code keeps. *)
Example scenario_sort_before_cutoff_differs :
  outcome (retrieval_and_rerank
    (sample_tool [Ok [chunk "B" 0 (text 300); chunk "A" 0 (text 300)]]
       counting_chain 300 true) "q")
  = Ok [chunk "B" 0 (text 300)]
  ∧ rbind (sorted [chunk "B" 0 (text 300); chunk "A" 0 (text 300)])
      (fun s => Ok (delete_redundancy 300 s))
    = Ok [chunk "A" 0 (text 300)].
Proof. split; vm_compute; reflexivity. Qed.

(** Keys of mixed kinds cannot be compared. *)
Example scenario_mixed_keys :
  sorted [mkDocument "a" {[ "source" := PStr "A"; "chunk_index" := PInt 1 ]};
          mkDocument "b" {[ "source" := PStr "A"; "chunk_index" := PStr "1" ]}]
  = Raise TypeError.
Proof. vm_compute. reflexivity. Qed.

(** When the chain answers, [run] returns its [output_text] although a
    retriever failed; the loss is logged. *)
Example scenario_degraded_run :
  run (sample_tool [Raise (ConnectionError "unreachable");
                    Ok [chunk "A" 0 "text"];
                    Ok [chunk "A" 0 "text"; chunk "B" 0 "more"]]
         counting_chain 500 false) "q"
  = ([InfoRetrieverDropped 0 (ConnectionError "unreachable");
      InfoDocsOrigin 2; InfoDocsAfterDeleteRedundancy 2], Ok "xx").
Proof. vm_compute. reflexivity. Qed.

(** * Further properties of the code *)

(** ** The budget cutoff *)

Lemma counted_idempotent (max_content : Z) (docs : list Document) :
  ∀ s, counted max_content s (counted max_content s docs) = counted max_content s docs.
Proof.
  induction docs as [|d docs IH]; intros s; simpl; [done|].
  destruct (s + len d >? max_content) eqn:Hcut; simpl; [done|].
  by rewrite Hcut, IH.
Qed.

Lemma counted_mono (docs : list Document) :
  ∀ m1 m2 s, m1 ≤ m2 → counted m1 s docs `prefix_of` counted m2 s docs.
Proof.
  induction docs as [|d docs IH]; intros m1 m2 s Hm; simpl; [done|].
  destruct (Z.gtb_spec (s + len d) m1) as [H1|H1]; [apply prefix_nil|].
  destruct (Z.gtb_spec (s + len d) m2) as [H2|H2]; [lia|].
  by apply prefix_cons, IH.
Qed.

(** X1.  The cutoff is idempotent: cutting a context that was cut with the
    same budget takes nothing more away. *)
Theorem delete_redundancy_idempotent :
  ∀ (max_content : Z) (docs : list Document),
    delete_redundancy max_content (delete_redundancy max_content docs)
    = delete_redundancy max_content docs.
Proof.
  intros max_content docs.
  rewrite (delete_redundancy_counted max_content docs), delete_redundancy_counted.
  apply counted_idempotent.
Qed.

(** X2.  The cutoff is monotone in the budget: the context kept under a
    budget is a prefix of the context kept under any larger budget. *)
Theorem delete_redundancy_monotone :
  ∀ (m1 m2 : Z) (docs : list Document),
    m1 ≤ m2 →
    delete_redundancy m1 docs `prefix_of` delete_redundancy m2 docs.
Proof.
  intros m1 m2 docs Hm. rewrite !delete_redundancy_counted. by apply counted_mono.
Qed.

Lemma delete_redundancy_monotone_witness :
  delete_redundancy 300 [chunk "A" 0 (text 300); chunk "A" 1 (text 300)]
    `prefix_of` delete_redundancy 600 [chunk "A" 0 (text 300); chunk "A" 1 (text 300)].
Proof. apply delete_redundancy_monotone. lia. Defined.

(** X3.  The context is the longest prefix of the fused list that fits:
    every prefix whose content lengths sum to at most [max_content] is wholly
    kept. *)
Theorem delete_redundancy_longest_fitting_prefix :
  ∀ (max_content : Z) (docs : list Document) (k : nat),
    content_sum (take k docs) ≤ max_content →
    take k docs `prefix_of` delete_redundancy max_content docs.
Proof.
  intros max_content docs k Hfit.
  rewrite <- (take_drop k docs) at 2.
  rewrite delete_redundancy_counted, counted_app by lia.
  by apply prefix_app_r.
Qed.

Lemma delete_redundancy_longest_fitting_prefix_witness :
  take 1 [chunk "A" 0 (text 300); chunk "A" 1 (text 300)]
    `prefix_of` delete_redundancy 500 [chunk "A" 0 (text 300); chunk "A" 1 (text 300)].
Proof.
  apply delete_redundancy_longest_fitting_prefix. vm_compute. discriminate.
Defined.

(** X4.  A non-empty fused list passes the cutoff unchanged exactly when its
    whole content fits the budget. *)
Theorem delete_redundancy_keeps_all :
  ∀ (max_content : Z) (docs : list Document),
    docs ≠ [] →
    (delete_redundancy max_content docs = docs ↔ content_sum docs ≤ max_content).
Proof.
  intros max_content docs Hne. rewrite delete_redundancy_counted. split.
  - intros Heq. destruct docs as [|d docs]; [done|].
    assert (0 ≤ max_content) as Hmax.
    { simpl in Heq. pose proof (len_nonneg d).
      destruct (Z.gtb_spec (0 + len d) max_content); [discriminate|lia]. }
    pose proof (counted_sum max_content (d :: docs) 0 Hmax) as Hs.
    rewrite Heq in Hs. lia.
  - intros Hfit. rewrite <- (app_nil_r docs) at 1.
    rewrite counted_app by lia. simpl. by rewrite app_nil_r.
Qed.

Lemma delete_redundancy_keeps_all_witness :
  delete_redundancy 600 [chunk "A" 0 (text 300); chunk "A" 1 (text 300)]
    = [chunk "A" 0 (text 300); chunk "A" 1 (text 300)]
  ↔ content_sum [chunk "A" 0 (text 300); chunk "A" 1 (text 300)] ≤ 600.
Proof. apply delete_redundancy_keeps_all. discriminate. Defined.

(** X5.  The context is empty exactly when there is no candidate or the
    first candidate alone is longer than the budget; what follows the first
    candidate plays no part. *)
Theorem delete_redundancy_empty_iff :
  ∀ (max_content : Z) (docs : list Document),
    delete_redundancy max_content docs = []
    ↔ docs = [] ∨ ∃ d rest, docs = d :: rest ∧ max_content < len d.
Proof.
  intros max_content docs. rewrite delete_redundancy_counted.
  destruct docs as [|d rest]; simpl.
  - split; [by left|done].
  - destruct (Z.gtb_spec (0 + len d) max_content) as [Hgt|Hle]; split.
    + intros _. right. exists d, rest. split; [done|lia].
    + done.
    + discriminate.
    + intros [H|(d' & rest' & [= <- <-] & H)]; [discriminate|lia].
Qed.

(** ** The coherence reorder *)

Lemma sorted_keys (docs res : list Document) :
  sorted docs = Ok res → Forall (fun d => ∃ k, sort_key d = Ok k) docs.
Proof.
  unfold sorted. intros H.
  destruct (map_result _ docs) as [decorated|e] eqn:Hd; simpl in H; [|discriminate].
  apply decorate_ok in Hd as [<- Hk].
  apply Forall_fmap. eapply Forall_impl; [exact Hk|].
  intros p Hp. simpl. by exists p.1.
Qed.

Lemma decorate_total (docs : list Document) :
  Forall (fun d => ∃ k, sort_key d = Ok k) docs →
  ∃ decorated,
    map_result (fun x => k <-? sort_key x ;; Ok (k, x)) docs = Ok decorated.
Proof.
  intros H. apply map_result_total. eapply Forall_impl; [exact H|].
  intros d [k Hk]. simpl. rewrite Hk. simpl. by eexists.
Qed.

Lemma sort_decorated_of_sorted (l : list (Key * Document)) :
  StronglySorted decorated_le l → sort_decorated l = Ok l.
Proof.
  induction 1 as [|x l Hl IH Hx]; simpl; [done|].
  rewrite IH. simpl. destruct l as [|y l']; simpl; [done|].
  apply Forall_cons in Hx as [Hxy _]. unfold decorated_le in Hxy.
  by rewrite Hxy.
Qed.

Lemma decorated_of_key_le (decorated : list (Key * Document)) :
  Forall (fun p => sort_key p.2 = Ok p.1) decorated →
  StronglySorted key_le (decorated.*2) →
  StronglySorted decorated_le decorated.
Proof.
  induction decorated as [|p l IH]; intros Hk Hs; [constructor|].
  apply Forall_cons in Hk as [Hp Hk]. rewrite fmap_cons in Hs.
  apply StronglySorted_inv in Hs as [Hs Hall].
  constructor; [by apply IH|].
  rewrite Forall_fmap in Hall. rewrite Forall_forall in Hall, Hk.
  apply Forall_forall. intros q Hq.
  destruct (Hall q Hq) as (ka & kb & Ha & Hb & Hlt). simpl in Ha, Hb.
  rewrite Hp in Ha. rewrite (Hk q Hq) in Hb.
  injection Ha as <-. injection Hb as <-. exact Hlt.
Qed.

Lemma sorted_of_sorted (docs : list Document) :
  Forall (fun d => ∃ k, sort_key d = Ok k) docs →
  StronglySorted key_le docs →
  sorted docs = Ok docs.
Proof.
  intros Hk Hs. unfold sorted.
  destruct (decorate_total docs Hk) as [decorated Hd]. rewrite Hd. simpl.
  apply decorate_ok in Hd as [Hd1 Hd2].
  rewrite sort_decorated_of_sorted; [simpl; by rewrite Hd1|].
  apply decorated_of_key_le; [done|by rewrite Hd1].
Qed.

(** X6.  A context that already stands in ascending order of
    [(source, chunk_index)], each chunk carrying both entries, is returned
    unchanged by the reorder. *)
Theorem sorted_keeps_ascending_context :
  ∀ (docs : list Document),
    Forall (fun d => ∃ k, sort_key d = Ok k) docs →
    StronglySorted key_le docs →
    sorted docs = Ok docs.
Proof.
  intros docs Hk Hs. unfold sorted.
  destruct (decorate_total docs Hk) as [decorated Hd]. rewrite Hd. simpl.
  apply decorate_ok in Hd as [Hd1 Hd2].
  rewrite sort_decorated_of_sorted; [simpl; by rewrite Hd1|].
  apply decorated_of_key_le; [done|by rewrite Hd1].
Qed.

Lemma sorted_keeps_ascending_context_witness :
  sorted [chunk "A" 0 "first"; chunk "A" 1 "second"; chunk "B" 0 "third"]
  = Ok [chunk "A" 0 "first"; chunk "A" 1 "second"; chunk "B" 0 "third"].
Proof.
  apply sorted_keeps_ascending_context.
  - repeat constructor; eexists; vm_compute; reflexivity.
  - repeat constructor; eexists _, _; vm_compute; done.
Defined.

(** X7.  The reorder is idempotent: sorting its result again returns the
    same list. *)
Theorem sorted_idempotent :
  ∀ (docs res : list Document),
    sorted docs = Ok res → sorted res = Ok res.
Proof.
  intros docs res H. destruct (sorted_ok docs res H) as [Hp Hs].
  apply sorted_of_sorted; [|done].
  rewrite Hp. by apply (sorted_keys docs res).
Qed.

Lemma sorted_idempotent_witness :
  sorted [chunk "A" 0 "first"; chunk "A" 1 "second"]
  = Ok [chunk "A" 0 "first"; chunk "A" 1 "second"].
Proof.
  apply (sorted_idempotent [chunk "A" 1 "second"; chunk "A" 0 "first"]).
  vm_compute. reflexivity.
Defined.

Lemma tuple_lt_irrefl (k : Key) : tuple_lt k k = Ok false.
Proof. unfold tuple_lt. by rewrite !decide_True. Qed.

Lemma insert_sorted_filter (k : Key) (x : Key * Document) (l : list (Key * Document)) :
  ∀ r, insert_sorted x l = Ok r →
       filter (fun p => p.1 = k) r = filter (fun p => p.1 = k) (x :: l).
Proof.
  induction l as [|y l IH]; intros r H; simpl in H.
  - by injection H as <-.
  - destruct (tuple_lt y.1 x.1) as [[|]|e] eqn:Hyx; simpl in H; try discriminate.
    + destruct (insert_sorted x l) as [r'|e]; simpl in H; [|discriminate].
      injection H as <-. rewrite filter_cons, (IH r' eq_refl), !filter_cons.
      destruct (decide (y.1 = k)) as [Hy|Hy]; [|done].
      destruct (decide (x.1 = k)) as [Hx|Hx]; [|done].
      rewrite Hy, Hx, tuple_lt_irrefl in Hyx. discriminate.
    + by injection H as <-.
Qed.

Lemma sort_decorated_filter (k : Key) (l : list (Key * Document)) :
  ∀ r, sort_decorated l = Ok r →
       filter (fun p => p.1 = k) r = filter (fun p => p.1 = k) l.
Proof.
  induction l as [|x l IH]; intros r H; simpl in H.
  - by injection H as <-.
  - destruct (sort_decorated l) as [s|e]; simpl in H; [|discriminate].
    rewrite (insert_sorted_filter k x s r H), !filter_cons.
    by rewrite (IH s eq_refl).
Qed.

Lemma with_key_decorated (k : Key) (l : list (Key * Document)) :
  Forall (fun p => sort_key p.2 = Ok p.1) l →
  with_key k (l.*2) = (filter (fun p => p.1 = k) l).*2.
Proof.
  unfold with_key. induction 1 as [|p l Hp _ IH]; [done|].
  rewrite fmap_cons, !filter_cons, IH, Hp.
  destruct (decide (p.1 = k)) as [->|Hne].
  - by rewrite decide_True.
  - rewrite decide_False; [done|congruence].
Qed.

(** X8.  The reorder is stable: the chunks that share one sort key stand in
    the result in the order in which they stood before. *)
Theorem sorted_stable :
  ∀ (docs res : list Document) (k : Key),
    sorted docs = Ok res → with_key k res = with_key k docs.
Proof.
  intros docs res k H. unfold sorted in H.
  destruct (map_result _ docs) as [decorated|e] eqn:Hd; simpl in H; [|discriminate].
  destruct (sort_decorated decorated) as [s|e] eqn:Hs; simpl in H; [|discriminate].
  injection H as <-. apply decorate_ok in Hd as [Hd1 Hd2].
  rewrite <- Hd1, !with_key_decorated.
  - by rewrite (sort_decorated_filter k decorated s Hs).
  - done.
  - by rewrite (sort_decorated_perm decorated s Hs).
Qed.

Lemma sorted_stable_witness :
  with_key (PStr "A", PInt 0)
    [chunk "A" 0 "first"; chunk "A" 0 "second"; chunk "B" 0 "other"]
  = with_key (PStr "A", PInt 0)
      [chunk "B" 0 "other"; chunk "A" 0 "first"; chunk "A" 0 "second"].
Proof.
  apply sorted_stable. vm_compute. reflexivity.
Defined.

(** ** The requests *)

Lemma content_sum_perm (l1 l2 : list Document) :
  l1 ≡ₚ l2 → content_sum l1 = content_sum l2.
Proof. induction 1; simpl; lia. Qed.

Lemma retrieval_and_rerank_perm (self : BishengRAGTool) (query : string)
    (fused ctx : list Document) :
  outcome (get_relevant_documents (retriever self) query (collection_name self))
    = Ok fused →
  outcome (retrieval_and_rerank self query) = Ok ctx →
  ctx ≡ₚ delete_redundancy (max_content (generate (params self))) fused.
Proof.
  intros Hfused. rewrite retrieval_and_rerank_outcome, Hfused. cbn [rbind].
  destruct (sort_by_source_and_index self).
  - intros H. by apply sorted_ok in H as [H _].
  - by intros [= <-].
Qed.

(** X9.  Whatever [retrieval_and_rerank] returns, reordered or not, consists
    of chunks of the fused list, is not longer than it, and fits the budget
    whenever the budget is not negative. *)
Theorem returned_context_within_budget :
  ∀ (self : BishengRAGTool) (query : string) (fused ctx : list Document),
    outcome (get_relevant_documents (retriever self) query (collection_name self))
      = Ok fused →
    outcome (retrieval_and_rerank self query) = Ok ctx →
    (∀ d, d ∈ ctx → d ∈ fused)
    ∧ (length ctx ≤ length fused)%nat
    ∧ (0 ≤ max_content (generate (params self)) →
       content_sum ctx ≤ max_content (generate (params self))).
Proof.
  intros self query fused ctx Hfused Hctx.
  pose proof (retrieval_and_rerank_perm self query fused ctx Hfused Hctx) as Hp.
  pose proof (counted_prefix (max_content (generate (params self))) fused 0) as Hpre.
  rewrite <- delete_redundancy_counted in Hpre.
  split; [|split].
  - intros d Hd. rewrite Hp in Hd. destruct Hpre as [rest ->].
    apply elem_of_app. by left.
  - rewrite Hp. by apply prefix_length.
  - intros Hmax. rewrite (content_sum_perm _ _ Hp), delete_redundancy_counted.
    pose proof (counted_sum (max_content (generate (params self))) fused 0 Hmax). lia.
Qed.

Lemma returned_context_within_budget_witness :
  (∀ d, d ∈ [chunk "A" 0 (text 300); chunk "A" 1 (text 300)] →
        d ∈ [chunk "A" 1 (text 300); chunk "A" 0 (text 300); chunk "B" 0 (text 300)])
  ∧ (length [chunk "A" 0 (text 300); chunk "A" 1 (text 300)]
     ≤ length [chunk "A" 1 (text 300); chunk "A" 0 (text 300); chunk "B" 0 (text 300)])%nat
  ∧ (0 ≤ 700 → content_sum [chunk "A" 0 (text 300); chunk "A" 1 (text 300)] ≤ 700).
Proof.
  apply (returned_context_within_budget
    (sample_tool [Ok [chunk "A" 1 (text 300); chunk "A" 0 (text 300);
                      chunk "B" 0 (text 300)]] counting_chain 700 true) "q").
  - vm_compute. reflexivity.
  - vm_compute. reflexivity.
Defined.

Lemma emitted_tell (r : LogRecord) : emitted (tell r) = [r].
Proof. done. Qed.

Lemma emitted_ret {A} (a : A) : emitted (ret a) = [].
Proof. done. Qed.

Lemma emitted_lift {A} (r : Result A) : emitted (lift r) = [].
Proof. done. Qed.

Lemma retrieval_and_rerank_emitted (self : BishengRAGTool) (query : string)
    (fused : list Document) :
  outcome (get_relevant_documents (retriever self) query (collection_name self))
    = Ok fused →
  emitted (retrieval_and_rerank self query)
  = emitted (get_relevant_documents (retriever self) query (collection_name self))
    ++ retrieval_records (length fused)
         (length (delete_redundancy (max_content (generate (params self))) fused))
         (sort_by_source_and_index self).
Proof.
  intros Hfused. unfold retrieval_and_rerank, retrieval_records.
  rewrite emitted_bind, Hfused. f_equal.
  rewrite emitted_bind, emitted_tell, outcome_tell.
  rewrite emitted_bind, emitted_tell, outcome_tell.
  destruct (sort_by_source_and_index self).
  - by rewrite emitted_bind, emitted_tell, outcome_tell, emitted_lift.
  - by rewrite emitted_ret.
Qed.

(** X10.  [retrieval_and_rerank] logs, after what the ensemble logged, the
    number of fused chunks, then the number of chunks kept by the cutoff,
    then the sort notice when the flag is set, also when the sort then
    raises; the second number never exceeds the first, and it is the length
    of the context whenever one is returned. *)
Theorem retrieval_and_rerank_log :
  ∀ (self : BishengRAGTool) (query : string) (fused : list Document),
    outcome (get_relevant_documents (retriever self) query (collection_name self))
      = Ok fused →
    ∃ kept : nat,
      emitted (retrieval_and_rerank self query)
      = emitted (get_relevant_documents (retriever self) query (collection_name self))
        ++ retrieval_records (length fused) kept (sort_by_source_and_index self)
      ∧ (kept ≤ length fused)%nat
      ∧ (∀ ctx, outcome (retrieval_and_rerank self query) = Ok ctx → length ctx = kept).
Proof.
  intros self query fused Hfused.
  exists (length (delete_redundancy (max_content (generate (params self))) fused)).
  split; [by apply retrieval_and_rerank_emitted|]. split.
  - apply prefix_length. rewrite delete_redundancy_counted. apply counted_prefix.
  - intros ctx Hctx.
    by rewrite (retrieval_and_rerank_perm self query fused ctx Hfused Hctx).
Qed.

Lemma retrieval_and_rerank_log_witness :
  ∃ kept : nat,
    emitted (retrieval_and_rerank
      (sample_tool [Ok [chunk "A" 0 "text"; chunk_without_index "B" "more"]]
         counting_chain 500 true) "q")
    = emitted (get_relevant_documents
        (retriever (sample_tool [Ok [chunk "A" 0 "text"; chunk_without_index "B" "more"]]
                      counting_chain 500 true)) "q" "collection")
      ++ retrieval_records 2 kept true
    ∧ (kept ≤ 2)%nat
    ∧ (∀ ctx,
         outcome (retrieval_and_rerank
           (sample_tool [Ok [chunk "A" 0 "text"; chunk_without_index "B" "more"]]
              counting_chain 500 true) "q") = Ok ctx →
         length ctx = kept).
Proof.
  apply (retrieval_and_rerank_log
    (sample_tool [Ok [chunk "A" 0 "text"; chunk_without_index "B" "more"]]
       counting_chain 500 true) "q"
    [chunk "A" 0 "text"; chunk_without_index "B" "more"]).
  vm_compute. reflexivity.
Defined.

(** X11.  The [try] of [run] does not cover the retrieval: an exception of
    [retrieval_and_rerank] leaves [run] as it is, with the records logged up
    to it, and the chain has no part in the result. *)
Theorem retrieval_failure_escapes_run :
  ∀ (self : BishengRAGTool) (query : string) (e : Exception),
    outcome (retrieval_and_rerank self query) = Raise e →
    ∀ chain : Chain,
      run (with_chain chain self) query
      = (emitted (retrieval_and_rerank self query), Raise e).
Proof.
  intros self query e He chain. unfold run.
  change (retrieval_and_rerank (with_chain chain self) query)
    with (retrieval_and_rerank self query).
  destruct (retrieval_and_rerank self query) as [l r].
  unfold outcome in He. simpl in He. subst r. reflexivity.
Qed.

Lemma retrieval_failure_escapes_run_witness :
  run (with_chain failing_chain
         (sample_tool [Ok [chunk "A" 0 "text"; chunk_without_index "B" "more"]]
            counting_chain 500 true)) "q"
  = (emitted (retrieval_and_rerank
       (sample_tool [Ok [chunk "A" 0 "text"; chunk_without_index "B" "more"]]
          counting_chain 500 true) "q"),
     Raise (KeyError "chunk_index")).
Proof.
  apply retrieval_failure_escapes_run. vm_compute. reflexivity.
Defined.

(** X12.  When the chain call returns, [run] returns the [output_text] of
    its result for the context of [retrieval_and_rerank], or raises
    [KeyError] when the result has no such entry, and it logs nothing beyond
    the records of the retrieval. *)
Theorem run_returns_output_text :
  ∀ (self : BishengRAGTool) (query : string) (ctx : list Document)
    (ans : gmap string string),
    outcome (retrieval_and_rerank self query) = Ok ctx →
    qa_chain self ctx query = Ok ans →
    run self query
    = (emitted (retrieval_and_rerank self query),
       match ans !! "output_text" with
       | Some rag_answer => Ok rag_answer
       | None => Raise (KeyError "output_text")
       end).
Proof.
  intros self query ctx ans Hctx Hans. unfold run.
  destruct (retrieval_and_rerank self query) as [l r].
  unfold outcome in Hctx. simpl in Hctx. subst r.
  unfold bind at 1. rewrite Hans. unfold getitem, emitted. simpl.
  destruct (ans !! "output_text"); simpl; by rewrite !app_nil_r.
Qed.

Lemma run_returns_output_text_witness :
  run (sample_tool [Ok [chunk "A" 0 "text"]] counting_chain 500 false) "q"
  = (emitted (retrieval_and_rerank
       (sample_tool [Ok [chunk "A" 0 "text"]] counting_chain 500 false) "q"),
     match ({[ "output_text" := "x" ]} : gmap string string) !! "output_text" with
     | Some rag_answer => Ok rag_answer
     | None => Raise (KeyError "output_text")
     end).
Proof.
  apply (run_returns_output_text
    (sample_tool [Ok [chunk "A" 0 "text"]] counting_chain 500 false) "q"
    [chunk "A" 0 "text"]).
  - vm_compute. reflexivity.
  - reflexivity.
Defined.

(** ** Construction *)

Section FurtherConstructionProperties.

Variables Milvus ElasticKeywordsSearch LanguageModelLike : Type.
Variables SplitterClass Splitter Prompt : Type.
Variable import_by_type : string → pyval → Result SplitterClass.
Variable new_splitter : SplitterClass → gmap string pyval → Result Splitter.
Variable new_retriever :
  RetrieverClass → gmap string (Kwarg Milvus ElasticKeywordsSearch Splitter) → Result Retriever.
Variable import_class : string → Result Prompt.
Variable load_qa_chain : LanguageModelLike → string → option Prompt → Result Chain.

Lemma init_retriever_list_app (vector_store : Milvus)
    (keyword_store : ElasticKeywordsSearch) (pre rest : list RetrieverConfig) :
  ∀ built,
    init_retriever_list _ _ _ _ import_by_type new_splitter new_retriever
      vector_store keyword_store pre = Ok built →
    init_retriever_list _ _ _ _ import_by_type new_splitter new_retriever
      vector_store keyword_store (pre ++ rest)
    = (rs <-? init_retriever_list _ _ _ _ import_by_type new_splitter new_retriever
                vector_store keyword_store rest ;;
       Ok (built ++ rs)).
Proof.
  induction pre as [|cfg pre IH]; intros built H; cbn [init_retriever_list app] in *.
  - injection H as <-. by destruct (init_retriever_list _ _ _ _ _ _ _ _ _ rest).
  - destruct (entry "type" (type cfg)) as [t|]; cbn [rbind] in *; [|discriminate].
    destruct (entry "splitter" (splitter cfg)) as [sk|]; cbn [rbind] in *; [|discriminate].
    destruct (entry "retrieval" (retrieval cfg)) as [rk|]; cbn [rbind] in *; [|discriminate].
    destruct (_post_init_retriever _ _ _ _ _ _ _ _ _ _ _ _) as [r|];
      cbn [rbind] in *; [|discriminate].
    destruct (init_retriever_list _ _ _ _ _ _ _ _ _ pre) as [rs'|] eqn:Hpre;
      cbn [rbind] in *; [|discriminate].
    injection H as <-. rewrite (IH rs' eq_refl).
    by destruct (init_retriever_list _ _ _ _ _ _ _ _ _ rest).
Qed.

(** X13.  The first entry that cannot be built decides the error of
    construction, and within an entry the keys are read before the type is
    looked up: a missing [type] raises [KeyError] for it, then a missing
    [splitter], then a missing [retrieval], and only an entry with all three
    keys raises the [ValueError] of an unknown type. *)
Theorem construction_error_of_first_bad_entry :
  ∀ (vector_store : Milvus) (keyword_store : ElasticKeywordsSearch)
    (llm : LanguageModelLike) (collection_name : string) (params : Params)
    (pre : list RetrieverConfig) (cfg : RetrieverConfig) (rest : list RetrieverConfig)
    (built : list Retriever),
    retriever_entries params = pre ++ cfg :: rest →
    init_retriever_list _ _ _ _ import_by_type new_splitter new_retriever
      vector_store keyword_store pre = Ok built →
    let construction :=
      __init__ _ _ _ _ _ _ import_by_type new_splitter new_retriever
        import_class load_qa_chain
        vector_store keyword_store llm collection_name params in
    (type cfg = None → construction = Raise (KeyError "type"))
    ∧ (∀ t, type cfg = Some t → splitter cfg = None →
            construction = Raise (KeyError "splitter"))
    ∧ (∀ t sk, type cfg = Some t → splitter cfg = Some sk → retrieval cfg = None →
               construction = Raise (KeyError "retrieval"))
    ∧ (∀ t sk rk, type cfg = Some t → splitter cfg = Some sk → retrieval cfg = Some rk →
                  t ∉ known_types →
                  construction = Raise (ValueError ("Unknown retriever type: " +:+ t))).
Proof.
  intros vs ks llm cn ps pre cfg rest built Hentries Hpre construction.
  subst construction. unfold __init__.
  rewrite Hentries, (init_retriever_list_app vs ks pre (cfg :: rest) built Hpre).
  cbn [init_retriever_list]. repeat split.
  - intros ->. reflexivity.
  - intros t -> ->. reflexivity.
  - intros t sk -> -> ->. reflexivity.
  - intros t sk rk -> -> -> Hunknown. cbn [entry rbind].
    unfold _post_init_retriever. by rewrite retriever_classes_unknown.
Qed.

(** X14.  A tool that was constructed carries the collection name it was
    given and the parameters as construction left them: [generate] and
    [post_retrieval] as loaded, and the retriever entries with [type] popped
    from every entry and from every splitter declaration.  It has one
    retriever per configured entry, and every entry as loaded had its three
    keys and a type among the four variants. *)
Theorem construction_success :
  ∀ (vector_store : Milvus) (keyword_store : ElasticKeywordsSearch)
    (llm : LanguageModelLike) (cn : string) (ps : Params) (tool : BishengRAGTool),
    __init__ _ _ _ _ _ _ import_by_type new_splitter new_retriever
      import_class load_qa_chain vector_store keyword_store llm cn ps = Ok tool →
    params tool = popped_params ps
    ∧ generate (params tool) = generate ps
    ∧ post_retrieval (params tool) = post_retrieval ps
    ∧ Forall (fun cfg =>
        type cfg = None
        ∧ ∀ sk, splitter cfg = Some sk → Forall (fun kv => kv.2 !! "type" = None) sk)
        (retriever_entries (params tool))
    ∧ collection_name tool = cn
    ∧ length (retrievers (retriever tool)) = length (retriever_entries ps)
    ∧ Forall (fun cfg =>
        (∃ t, type cfg = Some t ∧ t ∈ known_types)
        ∧ is_Some (splitter cfg) ∧ is_Some (retrieval cfg))
        (retriever_entries ps).
Proof.
  intros vs ks llm cn ps tool. unfold __init__.
  destruct (init_retriever_list _ _ _ _ _ _ _ _ _ _) as [rs|] eqn:Hrs;
    cbn [rbind]; [|discriminate].
  destruct (match prompt_type (generate ps) with Some _ => _ | None => _ end)
    as [prompt|]; cbn [rbind]; [|discriminate].
  destruct (load_qa_chain _ _ _) as [chain|]; cbn [rbind]; [|discriminate].
  intros [= <-]. simpl.
  apply init_retriever_list_ok in Hrs.
  split; [done|]. split; [done|]. split; [done|]. split; [|split; [done|split]].
  - apply Forall_fmap, Forall_forall. intros cfg _. simpl. split; [done|].
    intros sk Hsk. destruct (splitter cfg) as [sk0|]; simpl in Hsk; [|discriminate].
    injection Hsk as <-. apply Forall_fmap, Forall_forall. intros [key value] _.
    simpl. apply lookup_delete_eq.
  - symmetry. by apply (Forall2_length _ _ _ Hrs).
  - induction Hrs as [|cfg r cfgs rs' (t & sk & rk & Ht & Hk & Hsk & Hrk & _) _ IH];
      constructor; [|done].
    split; [by exists t|]. by rewrite Hsk, Hrk.
Qed.

Lemma init_retrieval_lookup (rk : list (string * pyval)) :
  ∀ (kw : gmap string (Kwarg Milvus ElasticKeywordsSearch Splitter)) (key : string),
    (key ∈ rk.*1 →
     ∃ v, (key, v) ∈ rk
          ∧ init_retrieval _ _ _ rk kw !! key = Some (KwValue _ _ _ v))
    ∧ (key ∉ rk.*1 → init_retrieval _ _ _ rk kw !! key = kw !! key).
Proof.
  unfold init_retrieval.
  induction rk as [|[k0 v0] rk IH]; intros kw key; simpl.
  - split; [intros H; by apply elem_of_nil in H|done].
  - destruct (IH (<[k0 := KwValue _ _ _ v0]> kw) key) as [IH1 IH2].
    destruct (decide (key ∈ rk.*1)) as [Hin|Hnin].
    + split; [|intros H; apply not_elem_of_cons in H as [_ H]; done].
      intros _. destruct (IH1 Hin) as (v & Hv & Hl).
      exists v. split; [by right|done].
    + rewrite (IH2 Hnin). split.
      * intros H. apply elem_of_cons in H as [->|H]; [|done].
        exists v0. split; [by left|]. by rewrite lookup_insert_eq.
      * intros H. apply not_elem_of_cons in H as [Hne _].
        by rewrite lookup_insert_ne.
Qed.

Lemma init_splitters_lookup (sk : list (string * gmap string pyval)) :
  ∀ (kw0 kw : gmap string (Kwarg Milvus ElasticKeywordsSearch Splitter)) (key : string),
    init_splitters _ _ _ _ import_by_type new_splitter sk kw0 = Ok kw →
    key ∈ sk.*1 → ∃ s, kw !! key = Some (KwSplitter _ _ _ s).
Proof.
  induction sk as [|[k0 value] sk IH]; intros kw0 kw key H Hin; cbn [init_splitters] in H.
  - by apply elem_of_nil in Hin.
  - destruct (getitem value "type") as [nm|]; cbn [rbind] in H; [|discriminate].
    destruct (import_by_type "textsplitters" nm) as [cls|]; cbn [rbind] in H;
      [|discriminate].
    destruct (new_splitter cls (delete "type" value)) as [s|]; cbn [rbind] in H;
      [|discriminate].
    destruct (decide (key ∈ sk.*1)) as [Hin'|Hnin].
    + by apply (IH _ _ _ H).
    + rewrite fmap_cons in Hin. apply elem_of_cons in Hin as [->|Hin]; [|done].
      simpl in Hnin |- *. clear IH. exists s.
      revert kw0 H. induction sk as [|[k1 value1] sk IH]; intros kw0 H;
        cbn [init_splitters] in H.
      * injection H as <-. by rewrite lookup_insert_eq.
      * destruct (getitem value1 "type") as [nm1|]; cbn [rbind] in H; [|discriminate].
        destruct (import_by_type "textsplitters" nm1) as [cls1|]; cbn [rbind] in H;
          [|discriminate].
        destruct (new_splitter cls1 (delete "type" value1)) as [s1|]; cbn [rbind] in H;
          [|discriminate].
        rewrite fmap_cons in Hnin. apply not_elem_of_cons in Hnin as [Hne Hnin].
        simpl in Hne. rewrite insert_insert_ne in H by done.
        by apply (IH Hnin (<[k1:=KwSplitter _ _ _ s1]> kw0)).
Qed.

(** X15.  The keyword arguments that [_post_init_retriever] hands to the
    retriever class always bind [vector_store] and [keyword_store] to the two
    stores; every retrieval parameter of another name is passed with one of
    its declared values, and every splitter name that is not also a
    retrieval parameter or a store name is passed as a constructed splitter. *)
Theorem retriever_keyword_arguments :
  ∀ (t : string) (vector_store : Milvus) (keyword_store : ElasticKeywordsSearch)
    (sk : list (string * gmap string pyval)) (rk : list (string * pyval))
    (r : Retriever),
    _post_init_retriever _ _ _ _ import_by_type new_splitter new_retriever
      t vector_store keyword_store sk rk = Ok r →
    ∃ cls kw,
      retriever_classes !! t = Some cls
      ∧ new_retriever cls kw = Ok r
      ∧ kw !! "vector_store" = Some (KwVectorStore _ _ _ vector_store)
      ∧ kw !! "keyword_store" = Some (KwKeywordStore _ _ _ keyword_store)
      ∧ (∀ key, key ∈ rk.*1 → key ≠ "vector_store" → key ≠ "keyword_store" →
                ∃ v, (key, v) ∈ rk ∧ kw !! key = Some (KwValue _ _ _ v))
      ∧ (∀ key, key ∈ sk.*1 → key ∉ rk.*1 →
                key ≠ "vector_store" → key ≠ "keyword_store" →
                ∃ s, kw !! key = Some (KwSplitter _ _ _ s)).
Proof.
  intros t vs ks sk rk r. unfold _post_init_retriever.
  destruct (retriever_classes !! t) as [cls|]; [|discriminate].
  destruct (init_splitters _ _ _ _ _ _ sk ∅) as [kw0|] eqn:Hsk; cbn [rbind];
    [|discriminate].
  intros Hr. eexists cls, _. split; [done|]. split; [exact Hr|].
  split; [|split; [|split]].
  - by rewrite lookup_insert_ne, lookup_insert_eq.
  - by rewrite lookup_insert_eq.
  - intros key Hin Hv Hk. rewrite !lookup_insert_ne by done.
    by apply init_retrieval_lookup.
  - intros key Hin Hnin Hv Hk. rewrite !lookup_insert_ne by done.
    rewrite (proj2 (init_retrieval_lookup rk kw0 key) Hnin).
    by apply (init_splitters_lookup sk ∅).
Qed.

Lemma init_splitters_app (pre rest : list (string * gmap string pyval)) :
  ∀ kw0 : gmap string (Kwarg Milvus ElasticKeywordsSearch Splitter),
    init_splitters _ _ _ _ import_by_type new_splitter (pre ++ rest) kw0
    = (kw <-? init_splitters _ _ _ _ import_by_type new_splitter pre kw0 ;;
       init_splitters _ _ _ _ import_by_type new_splitter rest kw).
Proof.
  induction pre as [|[k0 value] pre IH]; intros kw0; cbn [init_splitters app]; [done|].
  destruct (getitem value "type") as [nm|]; cbn [rbind]; [|done].
  destruct (import_by_type "textsplitters" nm) as [cls|]; cbn [rbind]; [|done].
  destruct (new_splitter cls (delete "type" value)) as [s|]; cbn [rbind]; [|done].
  apply IH.
Qed.

(** X16.  A splitter declaration without a [type] entry makes
    [_post_init_retriever] raise [KeyError] for [type], once the retriever
    type is known and the splitters declared before it were constructed;
    nothing declared after it is looked at. *)
Theorem splitter_without_type :
  ∀ (t : string) (vector_store : Milvus) (keyword_store : ElasticKeywordsSearch)
    (pre : list (string * gmap string pyval)) (key : string)
    (value : gmap string pyval) (rest : list (string * gmap string pyval))
    (rk : list (string * pyval))
    (kw : gmap string (Kwarg Milvus ElasticKeywordsSearch Splitter)),
    t ∈ known_types →
    init_splitters _ _ _ _ import_by_type new_splitter pre ∅ = Ok kw →
    value !! "type" = None →
    _post_init_retriever _ _ _ _ import_by_type new_splitter new_retriever
      t vector_store keyword_store (pre ++ (key, value) :: rest) rk
    = Raise (KeyError "type").
Proof.
  intros t vs ks pre key value rest rk kw Ht Hpre Hvalue.
  unfold _post_init_retriever.
  destruct (retriever_classes !! t) as [cls|] eqn:Hcls.
  - rewrite init_splitters_app, Hpre. cbn [rbind init_splitters].
    unfold getitem. by rewrite Hvalue.
  - exfalso. unfold known_types in Ht.
    repeat (apply elem_of_cons in Ht as [->|Ht]; [by vm_compute in Hcls|]).
    by apply elem_of_nil in Ht.
Qed.

(** ** The tool factory *)

(** X17.  [get_api_tool] raises [KeyError] when no description is given,
    although it reads the description with a default first; with a
    description, a missing store, model or collection name raises the
    [TypeError] of the constructor call. *)
Theorem get_api_tool_missing_argument :
  ∀ (name : string) (kwargs : ApiToolKwargs Milvus ElasticKeywordsSearch LanguageModelLike)
    (params : Params),
    (kw_description _ _ _ kwargs = None →
     get_api_tool _ _ _ _ _ _ import_by_type new_splitter new_retriever
       import_class load_qa_chain name kwargs params
     = Raise (KeyError "description"))
    ∧ (is_Some (kw_description _ _ _ kwargs) →
       kw_vector_store _ _ _ kwargs = None ∨ kw_keyword_store _ _ _ kwargs = None
       ∨ kw_llm _ _ _ kwargs = None ∨ kw_collection_name _ _ _ kwargs = None →
       get_api_tool _ _ _ _ _ _ import_by_type new_splitter new_retriever
         import_class load_qa_chain name kwargs params
       = Raise TypeError).
Proof.
  intros name kwargs params. unfold get_api_tool. split.
  - intros ->. reflexivity.
  - intros [d ->] Hmissing. cbn [entry rbind]. unfold new_tool.
    destruct (kw_vector_store _ _ _ kwargs), (kw_keyword_store _ _ _ kwargs),
      (kw_llm _ _ _ kwargs), (kw_collection_name _ _ _ kwargs); try reflexivity.
    by destruct Hmissing as [H|[H|[H|H]]].
Qed.

(** X18.  The tool that [get_api_tool] returns carries the given name and
    description, and its two callables answer alike: awaiting [coroutine] on
    a query gives what [func] gives, the [run] of a constructed instance. *)
Theorem get_api_tool_entry_points_agree :
  ∀ (nm : string) (kwargs : ApiToolKwargs Milvus ElasticKeywordsSearch LanguageModelLike)
    (ps : Params) (tool : MultArgsSchemaTool),
    get_api_tool _ _ _ _ _ _ import_by_type new_splitter new_retriever
      import_class load_qa_chain nm kwargs ps = Ok tool →
    name tool = nm
    ∧ kw_description _ _ _ kwargs = Some (description tool)
    ∧ ∃ self,
        new_tool _ _ _ _ _ _ import_by_type new_splitter new_retriever
          import_class load_qa_chain kwargs ps = Ok self
        ∧ ∀ query, func tool query = run self query
                   ∧ await (coroutine tool query) = func tool query.
Proof.
  intros nm kwargs ps tool. unfold get_api_tool.
  destruct (kw_description _ _ _ kwargs) as [d|]; cbn [entry rbind]; [|discriminate].
  destruct (new_tool _ _ _ _ _ _ _ _ _ _ _ kwargs ps) as [self|] eqn:Hself;
    cbn [rbind]; [|discriminate].
  intros [= <-]. simpl. split; [done|]. split; [done|].
  exists self. split; [done|]. intros query. split; [done|].
  unfold await, arun. apply bind_ret_r.
Qed.

(** X19.  [get_api_tool] builds no tool from parameters with an entry of
    unknown retriever type, whatever keyword arguments it is given. *)
Theorem get_api_tool_unknown_retriever_type :
  ∀ (name : string) (kwargs : ApiToolKwargs Milvus ElasticKeywordsSearch LanguageModelLike)
    (params : Params),
    Exists unknown_type (retriever_entries params) →
    ∃ e, get_api_tool _ _ _ _ _ _ import_by_type new_splitter new_retriever
           import_class load_qa_chain name kwargs params
         = Raise e.
Proof.
  intros name kwargs params Hunknown. unfold get_api_tool.
  destruct (kw_description _ _ _ kwargs) as [d|]; cbn [entry rbind]; [|by eexists].
  unfold new_tool.
  destruct (kw_vector_store _ _ _ kwargs) as [vs|]; [|by eexists].
  destruct (kw_keyword_store _ _ _ kwargs) as [ks|]; [|by eexists].
  destruct (kw_llm _ _ _ kwargs) as [llm|]; [|by eexists].
  destruct (kw_collection_name _ _ _ kwargs) as [cn|]; [|by eexists].
  unfold __init__.
  destruct (init_retriever_list_unknown _ _ _ _ import_by_type new_splitter
              new_retriever vs ks _ Hunknown) as [e ->].
  by eexists.
Qed.

(** X20.  Once the retrievers are built, a failing prompt import or a
    failing chain load leaves [__init__] as the error of construction; no
    prompt is imported when the parameters name no [prompt_type], and the
    chain is then loaded without a prompt. *)
Theorem construction_prompt_and_chain :
  ∀ (vector_store : Milvus) (keyword_store : ElasticKeywordsSearch)
    (llm : LanguageModelLike) (cn : string) (ps : Params) (built : list Retriever),
    init_retriever_list _ _ _ _ import_by_type new_splitter new_retriever
      vector_store keyword_store (retriever_entries ps) = Ok built →
    let construction :=
      __init__ _ _ _ _ _ _ import_by_type new_splitter new_retriever
        import_class load_qa_chain vector_store keyword_store llm cn ps in
    (∀ p e, prompt_type (generate ps) = Some p →
            import_class ("bisheng_langchain.rag.prompts." +:+ p) = Raise e →
            construction = Raise e)
    ∧ (∀ p prompt e, prompt_type (generate ps) = Some p →
            import_class ("bisheng_langchain.rag.prompts." +:+ p) = Ok prompt →
            load_qa_chain llm (chain_type (generate ps)) (Some prompt) = Raise e →
            construction = Raise e)
    ∧ (prompt_type (generate ps) = None →
       construction
       = (chain <-? load_qa_chain llm (chain_type (generate ps)) None ;;
          Ok (mkBishengRAGTool (mkEnsembleRetriever built false) chain
                (popped_params ps) cn))).
Proof.
  intros vs ks llm cn ps built Hbuilt construction. subst construction.
  unfold __init__. rewrite Hbuilt. cbn [rbind]. repeat split.
  - intros p e -> ->. reflexivity.
  - intros p prompt e -> -> Hload. cbn [rbind]. by rewrite Hload.
  - intros ->. reflexivity.
Qed.

End FurtherConstructionProperties.

Lemma construction_error_of_first_bad_entry_witness :
  __init__ unit unit unit unit unit unit
    (fun _ _ => Ok tt) (fun _ _ => Ok tt)
    (fun _ _ => Ok (fixed_retriever (Ok []))) (fun _ => Ok tt)
    (fun _ _ _ => Ok counting_chain)
    tt tt tt "collection"
    (mkParams
       [mkRetrieverConfig (Some "KeywordRetriever") (Some []) (Some []);
        mkRetrieverConfig (Some "FancyRetriever") None (Some [])]
       (mkGenerate 500 "stuff" None) ∅)
  = Raise (KeyError "splitter").
Proof.
  refine (proj1 (proj2 (construction_error_of_first_bad_entry
    unit unit unit unit unit unit
    (fun _ _ => Ok tt) (fun _ _ => Ok tt)
    (fun _ _ => Ok (fixed_retriever (Ok []))) (fun _ => Ok tt)
    (fun _ _ _ => Ok counting_chain)
    tt tt tt "collection"
    (mkParams
       [mkRetrieverConfig (Some "KeywordRetriever") (Some []) (Some []);
        mkRetrieverConfig (Some "FancyRetriever") None (Some [])]
       (mkGenerate 500 "stuff" None) ∅)
    [mkRetrieverConfig (Some "KeywordRetriever") (Some []) (Some [])]
    (mkRetrieverConfig (Some "FancyRetriever") None (Some []))
    [] [fixed_retriever (Ok [])] eq_refl _)) "FancyRetriever" eq_refl eq_refl).
  vm_compute. reflexivity.
Defined.

Lemma construction_success_witness :
  params (mkBishengRAGTool (mkEnsembleRetriever [fixed_retriever (Ok [])] false)
            counting_chain
            (mkParams
               [mkRetrieverConfig None
                  (Some [("text_splitter", {[ "chunk_size" := PInt 500 ]})]) (Some [])]
               (mkGenerate 500 "stuff" None) ∅)
            "collection")
  = popped_params
      (mkParams
         [mkRetrieverConfig (Some "MixRetriever")
            (Some [("text_splitter",
                    {[ "type" := PStr "ElemCharacterTextSplitter";
                       "chunk_size" := PInt 500 ]})]) (Some [])]
         (mkGenerate 500 "stuff" None) ∅).
Proof.
  refine (proj1 (construction_success
    unit unit unit unit unit unit
    (fun _ _ => Ok tt) (fun _ _ => Ok tt)
    (fun _ _ => Ok (fixed_retriever (Ok []))) (fun _ => Ok tt)
    (fun _ _ _ => Ok counting_chain)
    tt tt tt "collection"
    (mkParams
       [mkRetrieverConfig (Some "MixRetriever")
          (Some [("text_splitter",
                  {[ "type" := PStr "ElemCharacterTextSplitter";
                     "chunk_size" := PInt 500 ]})]) (Some [])]
       (mkGenerate 500 "stuff" None) ∅)
    _ _)).
  vm_compute. reflexivity.
Defined.

Lemma retriever_keyword_arguments_witness :
  ∃ cls (kw : gmap string (Kwarg unit unit unit)),
    retriever_classes !! "KeywordRetriever" = Some cls
    ∧ Ok (fixed_retriever (Ok [])) = Ok (fixed_retriever (Ok []))
    ∧ kw !! "vector_store" = Some (KwVectorStore _ _ _ tt)
    ∧ kw !! "keyword_store" = Some (KwKeywordStore _ _ _ tt)
    ∧ (∀ key, key ∈ [("search_kwargs", PInt 3); ("vector_store", PInt 0)].*1 →
              key ≠ "vector_store" → key ≠ "keyword_store" →
              ∃ v, (key, v) ∈ [("search_kwargs", PInt 3); ("vector_store", PInt 0)]
                   ∧ kw !! key = Some (KwValue _ _ _ v))
    ∧ (∀ key, key ∈ ([] : list (string * gmap string pyval)).*1 →
              key ∉ [("search_kwargs", PInt 3); ("vector_store", PInt 0)].*1 →
              key ≠ "vector_store" → key ≠ "keyword_store" →
              ∃ s, kw !! key = Some (KwSplitter _ _ _ s)).
Proof.
  apply (retriever_keyword_arguments unit unit unit unit
    (fun _ _ => Ok tt) (fun _ _ => Ok tt)
    (fun _ _ => Ok (fixed_retriever (Ok [])))
    "KeywordRetriever" tt tt [] [("search_kwargs", PInt 3); ("vector_store", PInt 0)]
    (fixed_retriever (Ok []))).
  vm_compute. reflexivity.
Defined.

Lemma splitter_without_type_witness :
  _post_init_retriever unit unit unit unit
    (fun _ _ => Ok tt) (fun _ _ => Ok tt)
    (fun _ _ => Ok (fixed_retriever (Ok [])))
    "MixRetriever" tt tt
    ([] ++ [("text_splitter", {[ "chunk_size" := PInt 500 ]})]) []
  = Raise (KeyError "type").
Proof.
  apply (splitter_without_type unit unit unit unit
    (fun _ _ => Ok tt) (fun _ _ => Ok tt)
    (fun _ _ => Ok (fixed_retriever (Ok [])))
    "MixRetriever" tt tt [] "text_splitter" {[ "chunk_size" := PInt 500 ]} [] [] ∅).
  - unfold known_types. set_solver.
  - reflexivity.
  - vm_compute. reflexivity.
Defined.

Lemma get_api_tool_missing_argument_witness :
  get_api_tool unit unit unit unit unit unit
    (fun _ _ => Ok tt) (fun _ _ => Ok tt)
    (fun _ _ => Ok (fixed_retriever (Ok []))) (fun _ => Ok tt)
    (fun _ _ _ => Ok counting_chain)
    "rag_knowledge_retrieve"
    (mkApiToolKwargs unit unit unit None (Some tt) (Some tt) (Some tt) (Some "collection"))
    (mkParams [] (mkGenerate 500 "stuff" None) ∅)
  = Raise (KeyError "description").
Proof.
  apply (proj1 (get_api_tool_missing_argument unit unit unit unit unit unit
    (fun _ _ => Ok tt) (fun _ _ => Ok tt)
    (fun _ _ => Ok (fixed_retriever (Ok []))) (fun _ => Ok tt)
    (fun _ _ _ => Ok counting_chain)
    "rag_knowledge_retrieve"
    (mkApiToolKwargs unit unit unit None (Some tt) (Some tt) (Some tt) (Some "collection"))
    (mkParams [] (mkGenerate 500 "stuff" None) ∅))).
  reflexivity.
Defined.

Lemma get_api_tool_entry_points_agree_witness :
    run (mkBishengRAGTool
           (mkEnsembleRetriever [fixed_retriever (Ok [chunk "A" 0 "text"])] false)
           counting_chain
           (mkParams [mkRetrieverConfig None (Some []) (Some [])]
              (mkGenerate 500 "stuff" None) ∅)
           "collection") "q"
    = run (mkBishengRAGTool
             (mkEnsembleRetriever [fixed_retriever (Ok [chunk "A" 0 "text"])] false)
             counting_chain
             (mkParams [mkRetrieverConfig None (Some []) (Some [])]
                (mkGenerate 500 "stuff" None) ∅)
             "collection") "q"
    ∧ await (arun (mkBishengRAGTool
                     (mkEnsembleRetriever [fixed_retriever (Ok [chunk "A" 0 "text"])] false)
                     counting_chain
                     (mkParams
                        [mkRetrieverConfig None (Some []) (Some [])]
                        (mkGenerate 500 "stuff" None) ∅)
                     "collection") "q")
      = run (mkBishengRAGTool
               (mkEnsembleRetriever [fixed_retriever (Ok [chunk "A" 0 "text"])] false)
               counting_chain
               (mkParams [mkRetrieverConfig None (Some []) (Some [])]
                  (mkGenerate 500 "stuff" None) ∅)
               "collection") "q".
Proof.
  destruct (get_api_tool_entry_points_agree unit unit unit unit unit unit
    (fun _ _ => Ok tt) (fun _ _ => Ok tt)
    (fun _ _ => Ok (fixed_retriever (Ok [chunk "A" 0 "text"]))) (fun _ => Ok tt)
    (fun _ _ _ => Ok counting_chain)
    "rag_knowledge_retrieve"
    (mkApiToolKwargs unit unit unit (Some "knowledge base") (Some tt) (Some tt)
       (Some tt) (Some "collection"))
    (mkParams [mkRetrieverConfig (Some "MixRetriever") (Some []) (Some [])]
       (mkGenerate 500 "stuff" None) ∅)
    (mkMultArgsSchemaTool "rag_knowledge_retrieve" "knowledge base"
       (run (mkBishengRAGTool
               (mkEnsembleRetriever [fixed_retriever (Ok [chunk "A" 0 "text"])] false)
               counting_chain
               (mkParams [mkRetrieverConfig None (Some []) (Some [])]
                  (mkGenerate 500 "stuff" None) ∅)
               "collection"))
       (arun (mkBishengRAGTool
                (mkEnsembleRetriever [fixed_retriever (Ok [chunk "A" 0 "text"])] false)
                counting_chain
                (mkParams [mkRetrieverConfig None (Some []) (Some [])]
                   (mkGenerate 500 "stuff" None) ∅)
                "collection"))))
    as (_ & _ & self & Hself & Hq).
  - vm_compute. reflexivity.
  - vm_compute in Hself. injection Hself as <-. exact (Hq "q").
Defined.

Lemma get_api_tool_unknown_retriever_type_witness :
  ∃ e, get_api_tool unit unit unit unit unit unit
         (fun _ _ => Ok tt) (fun _ _ => Ok tt)
         (fun _ _ => Ok (fixed_retriever (Ok []))) (fun _ => Ok tt)
         (fun _ _ _ => Ok counting_chain)
         "rag_knowledge_retrieve"
         (mkApiToolKwargs unit unit unit (Some "knowledge base") (Some tt) (Some tt)
            (Some tt) (Some "collection"))
         (mkParams [mkRetrieverConfig (Some "FancyRetriever") (Some []) (Some [])]
            (mkGenerate 500 "stuff" None) ∅)
       = Raise e.
Proof.
  apply (get_api_tool_unknown_retriever_type unit unit unit unit unit unit
    (fun _ _ => Ok tt) (fun _ _ => Ok tt)
    (fun _ _ => Ok (fixed_retriever (Ok []))) (fun _ => Ok tt)
    (fun _ _ _ => Ok counting_chain)).
  apply Exists_cons_hd. exists "FancyRetriever". split; [reflexivity|].
  unfold known_types. intros H.
  repeat (apply elem_of_cons in H as [H|H]; [discriminate|]).
  by apply elem_of_nil in H.
Defined.

(** The conversion of a tool input loses nothing: a string becomes the one
    positional argument and a dictionary becomes the keyword arguments, so
    that two inputs with the same arguments are the same input. *)
Lemma to_args_and_kwargs_injective :
  ∀ (a b : ToolInput),
    _to_args_and_kwargs a = _to_args_and_kwargs b → a = b.
Proof.
  intros [s|d] [s'|d']; simpl; intros H; try discriminate.
  - by injection H as ->.
  - by injection H as ->.
Qed.

Lemma construction_prompt_and_chain_witness :
  __init__ unit unit unit unit unit unit
    (fun _ _ => Ok tt) (fun _ _ => Ok tt)
    (fun _ _ => Ok (fixed_retriever (Ok [])))
    (fun _ => Raise (OtherError "ImportError" "no such prompt"))
    (fun _ _ _ => Ok counting_chain)
    tt tt tt "collection"
    (mkParams [mkRetrieverConfig (Some "MixRetriever") (Some []) (Some [])]
       (mkGenerate 500 "stuff" (Some "UNKNOWN_PROMPT")) ∅)
  = Raise (OtherError "ImportError" "no such prompt").
Proof.
  refine (proj1 (construction_prompt_and_chain unit unit unit unit unit unit
    (fun _ _ => Ok tt) (fun _ _ => Ok tt)
    (fun _ _ => Ok (fixed_retriever (Ok [])))
    (fun _ => Raise (OtherError "ImportError" "no such prompt"))
    (fun _ _ _ => Ok counting_chain)
    tt tt tt "collection"
    (mkParams [mkRetrieverConfig (Some "MixRetriever") (Some []) (Some [])]
       (mkGenerate 500 "stuff" (Some "UNKNOWN_PROMPT")) ∅)
    [fixed_retriever (Ok [])] _) "UNKNOWN_PROMPT" _ eq_refl eq_refl).
  vm_compute. reflexivity.
Defined.

(** ** The reorder flag *)

(** X21.  The reorder is off unless the parameters switch it on: when
    [sort_by_source_and_index] is absent from [post_retrieval] or false,
    [retrieval_and_rerank] returns the cutoff of the fused list as it is and
    reads no metadata, so that chunks without [source] or [chunk_index]
    raise nothing. *)
Theorem reorder_off_by_default :
  ∀ (self : BishengRAGTool) (query : string) (fused : list Document),
    post_retrieval (params self) !! "sort_by_source_and_index" = None
    ∨ post_retrieval (params self) !! "sort_by_source_and_index" = Some false →
    outcome (get_relevant_documents (retriever self) query (collection_name self))
      = Ok fused →
    outcome (retrieval_and_rerank self query)
    = Ok (delete_redundancy (max_content (generate (params self))) fused).
Proof.
  intros self query fused Hflag Hfused.
  rewrite retrieval_and_rerank_outcome, Hfused. cbn [rbind].
  unfold sort_by_source_and_index. by destruct Hflag as [-> | ->].
Qed.

Lemma reorder_off_by_default_witness :
  outcome (retrieval_and_rerank
    (mkBishengRAGTool
       (mkEnsembleRetriever
          [fixed_retriever (Ok [chunk_without_index "B" "more"; chunk "A" 0 "text"])] false)
       counting_chain (mkParams [] (mkGenerate 500 "stuff" None) ∅) "collection") "q")
  = Ok (delete_redundancy 500 [chunk_without_index "B" "more"; chunk "A" 0 "text"]).
Proof.
  apply (reorder_off_by_default
    (mkBishengRAGTool
       (mkEnsembleRetriever
          [fixed_retriever (Ok [chunk_without_index "B" "more"; chunk "A" 0 "text"])] false)
       counting_chain (mkParams [] (mkGenerate 500 "stuff" None) ∅) "collection") "q").
  - left. reflexivity.
  - vm_compute. reflexivity.
Defined.
